(** * IGDB MCP server: the API client and the tool-call handler

    A shallow embedding of [src/igdb-client.ts] (class [IGDBClient]) and of
    the tool handler of [src/index.ts], with the properties the
    specification states about them.

    Conventions of the embedding.
    - JavaScript strings are [string]; the only character the program inspects
      is the ASCII double quote, so working on bytes instead of UTF-16 code
      units changes nothing.
    - The numbers the program computes with (millisecond timestamps, HTTP
      statuses, game ids, result limits, lengths) are integers and are [Z];
      the ratings of a game, which are only ever formatted, are binary64
      [float]s.
    - [async] functions are computations in a state-and-exception monad [M]
      over a [World]: the client object, the list of [fetch] calls issued so
      far and the number of [Date.now()] readings taken.  One tool invocation
      is one run; interleavings of concurrent invocations are not modelled.
    - The remote servers, the clock and the two locale/number formatting
      primitives of the JavaScript runtime are parameters ([Runtime]).  Every
      [fetch] is answered by a response whose JSON body has the shape its
      call site declares; a rejected [fetch] and a body that is not JSON are
      not modelled. *)

From Stdlib Require Import ZArith String Ascii List DecimalString PrimFloat Lia.
From stdpp Require Import base option strings gmap.
Import ListNotations.

Local Open Scope Z_scope.
Local Open Scope string_scope.
Local Open Scope list_scope.

(** ** JavaScript primitives *)

Definition dquote : ascii := "034"%char.
Definition backslash : ascii := "092"%char.
Definition newline : ascii := "010"%char.

(** A template literal spanning several source lines. *)
Definition lines (ls : list string) : string :=
  String.concat (String newline "") ls.

(** [`${n}`] for an integer-valued number (below 10^21 in magnitude, where
    JavaScript switches to exponent notation). *)
Definition number_to_string (z : Z) : string :=
  NilZero.string_of_int (Z.to_int z).

(** [s.includes(needle)] *)
Fixpoint includes (needle s : string) : bool :=
  if String.prefix needle s then true
  else match s with
       | EmptyString => false
       | String _ s' => includes needle s'
       end.

(** [s.startsWith(p)] *)
Definition startsWith (p s : string) : bool := String.prefix p s.

(** [s.replace(/c/g, r)] for a one-character pattern [c] and a replacement
    [r] without [$] patterns. *)
Fixpoint replace_all (c : ascii) (r : string) (s : string) : string :=
  match s with
  | EmptyString => EmptyString
  | String a s' =>
      (if Ascii.eqb a c then r else String a EmptyString) +:+ replace_all c r s'
  end.

(** ToBoolean, on the types the program tests. *)
Class ToBoolean (A : Type) := to_boolean : A → bool.

#[export] Instance string_to_boolean : ToBoolean string :=
  λ s, match s with EmptyString => false | _ => true end.
#[export] Instance Z_to_boolean : ToBoolean Z :=
  λ n, negb (Z.eqb n 0).
#[export] Instance float_to_boolean : ToBoolean float :=
  λ x, negb (PrimFloat.eqb x 0 || PrimFloat.is_nan x).
#[export] Instance list_to_boolean {A} : ToBoolean (list A) :=
  λ _, true.
(** A property that may be [undefined]. *)
#[export] Instance option_to_boolean {A} `{ToBoolean A} : ToBoolean (option A) :=
  λ o, match o with None => false | Some x => to_boolean x end.

(** [x || d] where [x] may be [undefined]. *)
Definition or_else {A} `{ToBoolean A} (x : option A) (d : A) : A :=
  match x with
  | Some v => if to_boolean v then v else d
  | None => d
  end.

Definition Math_min (a b : Z) : Z := Z.min a b.

(** ** Data model ([src/igdb-client.ts], lines 5-31) *)

Module OAuthToken.
Record t := mk { access_token : string; expires_in : Z; token_type : string }.
End OAuthToken.

Module TokenData.
Record t := mk { token : string; expiresAt : Z }.
End TokenData.

(** The [{ id, name }] objects of the relation fields. *)
Module Ref.
Record t := mk { id : Z; name : string }.
End Ref.

Module Company.
Record t := mk { company : Ref.t }.
End Company.

Module Cover.
Record t := mk { url : string }.
End Cover.

Module Game.
Record t := mk {
  id : Z;
  name : string;
  summary : option string;
  storyline : option string;
  rating : option float;
  aggregated_rating : option float;
  first_release_date : option Z;
  genres : option (list Ref.t);
  platforms : option (list Ref.t);
  themes : option (list Ref.t);
  game_modes : option (list Ref.t);
  involved_companies : option (list Company.t);
  similar_games : option (list Ref.t);
  cover : option Cover.t
}.
End Game.

(** A thrown [Error]. *)
Module Error.
Record t := New { message : string }.
End Error.

(** ** The outside world *)

(** One call of [fetch(url, init)].  The query string built by
    [URLSearchParams] is kept as the list of its pairs. *)
Module Fetch.
Record t := mk {
  url : string;
  params : list (string * string);
  method : string;
  headers : list (string * string);
  body : option string
}.
End Fetch.

(** What the program reads of a [Response]: [ok], [status], [await text()]
    and [await json()] at the type the call site declares. *)
Module Response.
Record t (A : Type) := mk { ok : bool; status : Z; text : string; json : A }.
Arguments mk {A}.
Arguments ok {A}.
Arguments status {A}.
Arguments text {A}.
Arguments json {A}.
End Response.

Module IGDBClient.
Record t := mk {
  clientId : string;
  clientSecret : string;
  tokenData : option TokenData.t
}.
End IGDBClient.

Record World := mkWorld {
  igdbClient : IGDBClient.t;      (* the client object of [index.ts] *)
  wire : list Fetch.t;            (* the [fetch] calls issued, oldest first *)
  ticks : nat                     (* how many times [Date.now()] was read *)
}.

(** The servers answer a request knowing everything sent before it. *)
Record Runtime := mkRuntime {
  clock : nat → Z;                                    (* successive [Date.now()] *)
  twitch : list Fetch.t → Fetch.t → Response.t OAuthToken.t;
  igdb : list Fetch.t → Fetch.t → Response.t (list Game.t);
  toFixed : float → nat → string;                     (* [x.toFixed(d)] *)
  toLocaleDateString : Z → string     (* [new Date(ms).toLocaleDateString()] *)
}.

(** ** The monad of [async] code *)

Inductive Completion (A : Type) : Type :=
| Return (a : A)
| Throw (e : Error.t).
Arguments Return {A}.
Arguments Throw {A}.

Definition M (A : Type) : Type := World → Completion A * World.

#[export] Instance M_ret : MRet M := λ A a w, (Return a, w).
#[export] Instance M_bind : MBind M := λ A B f m w,
  match m w with
  | (Return a, w') => f a w'
  | (Throw e, w') => (Throw e, w')
  end.

Definition throw {A} (e : Error.t) : M A := λ w, (Throw e, w).

(** [try { m } catch (error) { h error }] *)
Definition try_catch {A} (m : M A) (h : Error.t → M A) : M A := λ w,
  match m w with
  | (Return a, w') => (Return a, w')
  | (Throw e, w') => h e w'
  end.

Definition this : M IGDBClient.t := λ w, (Return (igdbClient w), w).

Definition set_tokenData (td : TokenData.t) : M unit := λ w,
  let c := igdbClient w in
  (Return tt,
   mkWorld (IGDBClient.mk (IGDBClient.clientId c) (IGDBClient.clientSecret c) (Some td))
           (wire w) (ticks w)).

Section Client.

Variable rt : Runtime.

Definition Date_now : M Z := λ w,
  (Return (clock rt (ticks w)), mkWorld (igdbClient w) (wire w) (S (ticks w))).

(** [await fetch(...)], sending [req] to the server [srv]. *)
Definition fetch {A} (srv : list Fetch.t → Fetch.t → Response.t A) (req : Fetch.t)
  : M (Response.t A) := λ w,
  (Return (srv (wire w) req), mkWorld (igdbClient w) (wire w ++ [req]) (ticks w)).

(** ** [IGDBClient] ([src/igdb-client.ts], lines 33-147) *)

Definition missing_credentials : string :=
  "Missing IGDB credentials. Please set IGDB_CLIENT_ID and IGDB_CLIENT_SECRET environment variables.".

(** [new IGDBClient()], reading [process.env]. *)
Definition constructor (process_env : gmap string string) : Completion IGDBClient.t :=
  let clientId := process_env !! "IGDB_CLIENT_ID" in
  let clientSecret := process_env !! "IGDB_CLIENT_SECRET" in
  if negb (to_boolean clientId) || negb (to_boolean clientSecret) then
    Throw (Error.New missing_credentials)
  else
    (* both are strings here *)
    Return (IGDBClient.mk (default "" clientId) (default "" clientSecret) None).

Definition token_url : string := "https://id.twitch.tv/oauth2/token".

Definition token_request (c : IGDBClient.t) : Fetch.t :=
  Fetch.mk token_url
           [("client_id", IGDBClient.clientId c);
            ("client_secret", IGDBClient.clientSecret c);
            ("grant_type", "client_credentials")]
           "POST" [] None.

(** Lines 61-85: ask the identity provider for a new token. *)
Definition refreshToken : M string :=
  c ← this;
  response ← fetch (twitch rt) (token_request c);
  if negb (Response.ok response) then
    let errorText := Response.text response in
    throw (Error.New ("Failed to authenticate with Twitch: "
                        +:+ number_to_string (Response.status response)
                        +:+ " " +:+ errorText))
  else
    let data := Response.json response in
    now ← Date_now;
    set_tokenData (TokenData.mk (OAuthToken.access_token data)
                                (now + OAuthToken.expires_in data * 1000));;
    c' ← this;
    match IGDBClient.tokenData c' with
    | Some td => mret (TokenData.token td)
    | None => throw (Error.New "Cannot read properties of null (reading 'token')")
    end.

(** Lines 55-86.  [Date.now()] is read in the guard only when a credential
    is cached ([&&] short-circuits). *)
Definition getToken : M string :=
  c ← this;
  match IGDBClient.tokenData c with
  | Some td =>
      now ← Date_now;
      if Z.ltb now (TokenData.expiresAt td - 300000)
      then mret (TokenData.token td)
      else refreshToken
  | None => refreshToken
  end.

Definition api_request (c : IGDBClient.t) (token endpoint body : string) : Fetch.t :=
  Fetch.mk ("https://api.igdb.com/v4/" +:+ endpoint) [] "POST"
           [("Client-ID", IGDBClient.clientId c);
            ("Authorization", "Bearer " +:+ token);
            ("Content-Type", "text/plain")]
           (Some body).

(** Lines 91-110. *)
Definition request (endpoint body : string) : M (list Game.t) :=
  token ← getToken;
  c ← this;
  response ← fetch (igdb rt) (api_request c token endpoint body);
  if negb (Response.ok response) then
    let errorText := Response.text response in
    throw (Error.New ("IGDB API error: "
                        +:+ number_to_string (Response.status response)
                        +:+ " " +:+ errorText))
  else mret (Response.json response).

(** [query.replace(/"/g, '\\"')] *)
Definition escape_quotes (query : string) : string :=
  replace_all dquote (String backslash (String dquote "")) query.

Definition searchGames_body (query : string) (limit : Z) : string :=
  lines [
    "";
    "      search " +:+ String dquote (escape_quotes query) +:+ String dquote ";";
    "      fields name, summary, rating, aggregated_rating,";
    "             genres.name, platforms.name,";
    "             first_release_date, cover.url,";
    "             involved_companies.company.name;";
    "      limit " +:+ number_to_string limit +:+ ";";
    "    "
  ].

(** Lines 115-127; [limit] is [undefined] when the caller leaves it out. *)
Definition searchGames (query : string) (limit : option Z) : M (list Game.t) :=
  let limit := default 10 limit in
  let body := searchGames_body query limit in
  games ← request "games" body;
  mret games.

Definition getGameDetails_body (gameId : Z) : string :=
  lines [
    "";
    "      where id = " +:+ number_to_string gameId +:+ ";";
    "      fields name, summary, storyline, rating, aggregated_rating,";
    "             genres.name, themes.name, platforms.name,";
    "             first_release_date, cover.url,";
    "             involved_companies.company.name,";
    "             similar_games.name, similar_games.id,";
    "             game_modes.name;";
    "    "
  ].

(** Lines 132-146. *)
Definition getGameDetails (gameId : Z) : M (option Game.t) :=
  let body := getGameDetails_body gameId in
  games ← request "games" body;
  let gameArray := games in
  mret (if Z.ltb 0 (Z.of_nat (length gameArray)) then gameArray !! 0%nat else None).

End Client.

(** ** The tool server ([src/index.ts]) *)

Module TextContent.
Record t := mk { type : string; text : string }.
End TextContent.

Module CallToolResult.
Record t := mk { content : list TextContent.t; isError : option bool }.
End CallToolResult.

(** The [arguments] object of a tool call, at the types the handler casts
    its properties to; [None] is an absent property. *)
Module Args.
Record t := mk { query : option string; limit : option Z; game_id : option Z }.
End Args.

Module Params.
Record t := mk { name : string; arguments : option Args.t }.
End Params.

Module CallToolRequest.
Record t := mk { params : Params.t }.
End CallToolRequest.

(** [if (x) { lines.push(...) }] contributes these lines. *)
Definition when {A} `{ToBoolean A} (x : option A) (f : A → list string)
  : list string :=
  match x with
  | Some v => if to_boolean v then f v else []
  | None => []
  end.

(** [if (xs && xs.length > 0) { lines.push(...) }] *)
Definition when_nonempty {A} (xs : option (list A)) (f : list A → list string)
  : list string :=
  match xs with
  | Some l => if Z.ltb 0 (Z.of_nat (length l)) then f l else []
  | None => []
  end.

Definition join (sep : string) (ls : list string) : string := String.concat sep ls.

Definition NL : string := String newline "".

Section Server.

Variable rt : Runtime.

(** Lines 45-78 of [index.ts]. *)
Definition formatGame (game : Game.t) : string :=
  let lines :=
    (["**" +:+ Game.name game +:+ "** (ID: " +:+ number_to_string (Game.id game) +:+ ")"]
    ++ when (Game.rating game)
         (λ r, ["Rating: " +:+ toFixed rt r 1 +:+ "/100"])
    ++ when (Game.aggregated_rating game)
         (λ r, ["Critic Rating: " +:+ toFixed rt r 1 +:+ "/100"])
    ++ when (Game.first_release_date game)
         (λ d, ["Released: " +:+ toLocaleDateString rt (d * 1000)])
    ++ when_nonempty (Game.genres game)
         (λ gs, ["Genres: " +:+ join ", " (map Ref.name gs)])
    ++ when_nonempty (Game.platforms game)
         (λ ps, ["Platforms: " +:+ join ", " (map Ref.name ps)])
    ++ when (Game.summary game)
         (λ s, [NL +:+ "Summary: " +:+ s]))%list in
  join NL lines.

(** Lines 83-152 of [index.ts]. *)
Definition formatGameDetails (game : Game.t) : string :=
  let lines :=
    (["# " +:+ Game.name game;
     "**IGDB ID:** " +:+ number_to_string (Game.id game);
     ""]
    ++ when (Game.rating game)
         (λ r, ["**User Rating:** " +:+ toFixed rt r 1 +:+ "/100"])
    ++ when (Game.aggregated_rating game)
         (λ r, ["**Critic Rating:** " +:+ toFixed rt r 1 +:+ "/100"])
    ++ when (Game.first_release_date game)
         (λ d, ["**Released:** " +:+ toLocaleDateString rt (d * 1000)])
    ++ [""]
    ++ when_nonempty (Game.genres game)
         (λ gs, ["**Genres:** " +:+ join ", " (map Ref.name gs)])
    ++ when_nonempty (Game.themes game)
         (λ ts, ["**Themes:** " +:+ join ", " (map Ref.name ts)])
    ++ when_nonempty (Game.platforms game)
         (λ ps, ["**Platforms:** " +:+ join ", " (map Ref.name ps)])
    ++ when_nonempty (Game.game_modes game)
         (λ ms, ["**Game Modes:** " +:+ join ", " (map Ref.name ms)])
    ++ when_nonempty (Game.involved_companies game)
         (λ cs, ["**Companies:** "
                   +:+ join ", " (map (λ c, Ref.name (Company.company c)) cs)])
    ++ [""]
    ++ when (Game.summary game) (λ s, ["## Summary"; s; ""])
    ++ when (Game.storyline game) (λ s, ["## Storyline"; s; ""])
    ++ when_nonempty (Game.similar_games game)
         (λ ss, "## Similar Games"
                :: map (λ similar, "- " +:+ Ref.name similar +:+ " (ID: "
                                     +:+ number_to_string (Ref.id similar) +:+ ")") ss))%list in
  join NL lines.

(** A result with one text item; [isError] is left out of normal results. *)
Definition text_result (text : string) (isError : option bool) : CallToolResult.t :=
  CallToolResult.mk [TextContent.mk "text" text] isError.

(** [const limit = Math.min((args?.limit as number) || 10, 50)] *)
Definition search_limit (args : option Args.t) : Z :=
  Math_min (or_else (args ≫= Args.limit) 10) 50.

(** What follows the argument check of the [search_games] branch. *)
Definition search_games (query : string) (limit : Z) : M CallToolResult.t :=
  games ← searchGames rt query (Some limit);
  if Nat.eqb (length games) 0 then
    mret (text_result ("No games found matching " +:+ String dquote query
                         +:+ String dquote "") None)
  else
    let formattedGames := join (NL +:+ NL +:+ "---" +:+ NL +:+ NL) (map formatGame games) in
    mret (text_result ("Found " +:+ number_to_string (Z.of_nat (length games))
                         +:+ " game(s) matching " +:+ String dquote query
                         +:+ String dquote ":" +:+ NL +:+ NL +:+ formattedGames) None).

(** What follows the argument check of the [get_game_details] branch. *)
Definition get_game_details (gameId : Z) : M CallToolResult.t :=
  game ← getGameDetails rt gameId;
  match game with
  | None =>
      mret (text_result ("No game found with ID " +:+ number_to_string gameId) None)
  | Some game => mret (text_result (formatGameDetails game) None)
  end.

(** The [catch (error)] block: every thrown value here is an [Error]. *)
Definition on_error (error : Error.t) : M CallToolResult.t :=
  let errorMessage := Error.message error in
  mret (text_result ("Error: " +:+ errorMessage) (Some true)).

(** The [CallToolRequestSchema] handler, lines 198-301 of [index.ts]. *)
Definition callToolHandler (request : CallToolRequest.t) : M CallToolResult.t :=
  let name := Params.name (CallToolRequest.params request) in
  let args := Params.arguments (CallToolRequest.params request) in
  try_catch
    (if String.eqb name "search_games" then
       let query := args ≫= Args.query in
       let limit := search_limit args in
       match query with
       | Some q =>
           if negb (to_boolean q)
           then mret (text_result "Error: query parameter is required" (Some true))
           else search_games q limit
       | None => mret (text_result "Error: query parameter is required" (Some true))
       end
     else if String.eqb name "get_game_details" then
       let gameId := args ≫= Args.game_id in
       match gameId with
       | Some id =>
           if negb (to_boolean id)
           then mret (text_result "Error: game_id parameter is required" (Some true))
           else get_game_details id
       | None => mret (text_result "Error: game_id parameter is required" (Some true))
       end
     else
       mret (text_result ("Unknown tool: " +:+ name) (Some true)))
    on_error.

End Server.

(** ** Tool listing and start-up ([src/index.ts]) *)

Module PropertySchema.
Record t := mk { type : string; description : string; default : option Z }.
End PropertySchema.

Module InputSchema.
Record t := mk {
  type : string;
  properties : list (string * PropertySchema.t);
  required : list string
}.
End InputSchema.

Module Tool.
Record t := mk { name : string; description : string; inputSchema : InputSchema.t }.
End Tool.

Module ListToolsResult.
Record t := mk { tools : list Tool.t }.
End ListToolsResult.

(** The [ListToolsRequestSchema] handler, lines 155-195 of [index.ts]; it
    reads and changes nothing. *)
Definition listToolsHandler : ListToolsResult.t :=
  ListToolsResult.mk [
    Tool.mk "search_games"
      "Search for games in the IGDB database by name. Returns a list of matching games with basic information including name, rating, genres, platforms, and release date."
      (InputSchema.mk "object"
         [("query", PropertySchema.mk "string"
                      "The game name or search query to look for" None);
          ("limit", PropertySchema.mk "number"
                      "Maximum number of results to return (default: 10, max: 50)"
                      (Some 10))]
         ["query"]);
    Tool.mk "get_game_details"
      "Get detailed information about a specific game by its IGDB ID. Returns comprehensive details including storyline, themes, similar games, and more."
      (InputSchema.mk "object"
         [("game_id", PropertySchema.mk "number" "The IGDB game ID" None)]
         ["game_id"])
  ].

(** How the server process begins, lines 19-27 of [index.ts]: it either
    exits with a status after logging to standard error, or goes on with its
    client, nothing sent and the clock not read yet. *)
Inductive Process : Type :=
| Exited (code : Z) (logged : string * Error.t)
| Started (w : World).

Definition startup (process_env : gmap string string) : Process :=
  match constructor process_env with
  | Return client => Started (mkWorld client [] 0)
  | Throw error => Exited 1 ("Error initializing IGDB client:", error)
  end.

(** ** Vocabulary of the specification *)

(** A request to the identity provider's token endpoint. *)
Definition is_identity_request (f : Fetch.t) : bool :=
  String.eqb (Fetch.url f) token_url.

Definition identity_requests (l : list Fetch.t) : nat :=
  length (List.filter is_identity_request l).

(** No credential is cached, or the cached one is within the five-minute
    margin of its expiry at the next clock reading (the negation of the
    guard of [getToken]). *)
Definition needs_refresh (rt : Runtime) (w : World) : bool :=
  match IGDBClient.tokenData (igdbClient w) with
  | None => true
  | Some td => negb (Z.ltb (clock rt (ticks w)) (TokenData.expiresAt td - 300000))
  end.

(** The answer of the identity provider to the token request issued from [w]. *)
Definition token_response (rt : Runtime) (w : World) : Response.t OAuthToken.t :=
  twitch rt (wire w) (token_request (igdbClient w)).

Definition result_text (r : CallToolResult.t) : string :=
  match CallToolResult.content r with
  | c :: _ => TextContent.text c
  | [] => ""
  end.

Definition known_tool (name : string) : bool :=
  String.eqb name "search_games" || String.eqb name "get_game_details".

Definition call (name : string) (args : option Args.t) : CallToolRequest.t :=
  CallToolRequest.mk (Params.mk name args).

(** The world once the guard of [getToken] has been evaluated. *)
Definition after_guard (w : World) : World :=
  match IGDBClient.tokenData (igdbClient w) with
  | Some _ => mkWorld (igdbClient w) (wire w) (S (ticks w))
  | None => w
  end.

(** The client after a token response [data] was stored at time [now]. *)
Definition store_token (c : IGDBClient.t) (data : OAuthToken.t) (now : Z) : IGDBClient.t :=
  IGDBClient.mk (IGDBClient.clientId c) (IGDBClient.clientSecret c)
    (Some (TokenData.mk (OAuthToken.access_token data)
                        (now + OAuthToken.expires_in data * 1000))).

Definition auth_failure (r : Response.t OAuthToken.t) : string :=
  "Failed to authenticate with Twitch: "
    +:+ number_to_string (Response.status r) +:+ " " +:+ Response.text r.

Definition api_failure (r : Response.t (list Game.t)) : string :=
  "IGDB API error: " +:+ number_to_string (Response.status r) +:+ " " +:+ Response.text r.

(** The world after the data request [req] was sent from [w]. *)
Definition sent (w : World) (req : Fetch.t) : World :=
  mkWorld (igdbClient w) (wire w ++ [req]) (ticks w).

(** The [fields] clause of a search, as it stands in the request body. *)
Definition search_fields_clause : string :=
  lines [
    "      fields name, summary, rating, aggregated_rating,";
    "             genres.name, platforms.name,";
    "             first_release_date, cover.url,";
    "             involved_companies.company.name;"
  ].

Definition missing_query : CallToolResult.t :=
  text_result "Error: query parameter is required" (Some true).

Definition missing_game_id : CallToolResult.t :=
  text_result "Error: game_id parameter is required" (Some true).

Definition no_games_found (query : string) : CallToolResult.t :=
  text_result ("No games found matching " +:+ String dquote query +:+ String dquote "") None.

Definition no_game_found (gameId : Z) : CallToolResult.t :=
  text_result ("No game found with ID " +:+ number_to_string gameId) None.

(** ** Sample data for concrete runs *)

Module Demo.

Definition tactics : Game.t :=
  Game.mk 1920 "Final Fantasy Tactics" (Some "A tactical role-playing game.") None
          (Some 88.25%float) None (Some 866000000)
          (Some [Ref.mk 12 "Role-playing (RPG)"; Ref.mk 15 "Strategy"])
          (Some [Ref.mk 7 "PlayStation"]) None None None None None.

Definition granted : Response.t OAuthToken.t :=
  Response.mk true 200 "" (OAuthToken.mk "fresh" 3600 "bearer").

Definition denied : Response.t OAuthToken.t :=
  Response.mk false 401 "invalid_client" (OAuthToken.mk "" 0 "").

Definition base (auth : Response.t OAuthToken.t) (games : list Game.t) : Runtime :=
  mkRuntime (λ n, 1000 + Z.of_nat n)
            (λ _ _, auth)
            (λ _ _, Response.mk true 200 "" games)
            (λ _ _, "88.3")
            (λ _, "6/20/1997").

Definition rt : Runtime := base granted [tactics].
Definition rt_empty : Runtime := base granted [].
Definition rt_denied : Runtime := base denied [].

(** A client that holds no credential yet, and one that holds a fresh one. *)
Definition w : World := mkWorld (IGDBClient.mk "id" "secret" None) [] 0.
Definition cached : TokenData.t := TokenData.mk "cached" 5000000.
Definition w_cached : World :=
  mkWorld (IGDBClient.mk "id" "secret" (Some cached)) [] 0.

Definition quoted : string :=
  "say " +:+ String dquote ("hi" +:+ String dquote "").

Definition env (id secret : string) : gmap string string :=
  <["IGDB_CLIENT_ID" := id]> (<["IGDB_CLIENT_SECRET" := secret]> ∅).

End Demo.

(** ** Further vocabulary *)

(** An optional field as the formatters see it: a falsy value counts as an
    absent one. *)
Definition truthy_only {A} `{ToBoolean A} (x : option A) : option A :=
  match x with
  | Some v => if to_boolean v then Some v else None
  | None => None
  end.

Definition nonempty_only {A} (xs : option (list A)) : option (list A) :=
  match xs with
  | Some [] => None
  | _ => xs
  end.

Definition without_falsy (g : Game.t) : Game.t :=
  Game.mk (Game.id g) (Game.name g)
          (truthy_only (Game.summary g)) (truthy_only (Game.storyline g))
          (truthy_only (Game.rating g)) (truthy_only (Game.aggregated_rating g))
          (truthy_only (Game.first_release_date g))
          (nonempty_only (Game.genres g)) (nonempty_only (Game.platforms g))
          (nonempty_only (Game.themes g)) (nonempty_only (Game.game_modes g))
          (nonempty_only (Game.involved_companies g))
          (nonempty_only (Game.similar_games g))
          (Game.cover g).

(** How many double quotes a string holds. *)
Fixpoint count_quotes (s : string) : nat :=
  match s with
  | EmptyString => 0
  | String a s' => (if Ascii.eqb a dquote then 1 else 0) + count_quotes s'
  end.

(** Whether the [arguments] object has the property called [p]. *)
Definition has_argument (p : string) (args : option Args.t) : bool :=
  if String.eqb p "query" then bool_decide (is_Some (args ≫= Args.query))
  else if String.eqb p "limit" then bool_decide (is_Some (args ≫= Args.limit))
  else if String.eqb p "game_id" then bool_decide (is_Some (args ≫= Args.game_id))
  else false.

Definition unknown_tool (name : string) : CallToolResult.t :=
  text_result ("Unknown tool: " +:+ name) (Some true).

(** The list of results of a non-empty search, as the handler words it. *)
Definition found_heading (n : nat) (query : string) : string :=
  "Found " +:+ number_to_string (Z.of_nat n) +:+ " game(s) matching "
    +:+ String dquote query +:+ String dquote ":".

Definition game_heading (g : Game.t) : string :=
  "**" +:+ Game.name g +:+ "** (ID: " +:+ number_to_string (Game.id g) +:+ ")".

Definition similar_line (similar : Ref.t) : string :=
  "- " +:+ Ref.name similar +:+ " (ID: " +:+ number_to_string (Ref.id similar) +:+ ")".

(** The headers of a data request bearing [token]. *)
Definition api_headers (clientId token : string) : list (string * string) :=
  [("Client-ID", clientId);
   ("Authorization", "Bearer " +:+ token);
   ("Content-Type", "text/plain")].

(** The clock never runs backwards. *)
Definition monotone (clock : nat → Z) : Prop := ∀ n, (clock n ≤ clock (S n))%Z.

Module Scenario.

Definition rejecting : Runtime :=
  mkRuntime (λ n, 1000 + Z.of_nat n)
            (λ _ _, Response.mk true 200 "" (OAuthToken.mk "fresh" 3600 "bearer"))
            (λ _ _, Response.mk false 429 "Too Many Requests" [])
            (λ _ _, "88.3")
            (λ _, "6/20/1997").

Definition short_lived : Runtime :=
  mkRuntime (λ n, 1000 + Z.of_nat n)
            (λ _ _, Response.mk true 200 "" (OAuthToken.mk "brief" 120 "bearer"))
            (λ _ _, Response.mk true 200 "" [])
            (λ _ _, "88.3")
            (λ _, "6/20/1997").

Definition bare : Game.t :=
  Game.mk 7 "Pong" None None None None None None None None None None None None.

Definition zeroed : Game.t :=
  Game.mk 7 "Pong" (Some "") (Some "") (Some 0%float) (Some 0%float) (Some 0)
          (Some []) (Some []) (Some []) (Some []) (Some []) (Some []) None.

Definition sequel : Game.t :=
  Game.mk 8 "Pong 2" None None None None None None None None None None
          (Some [Ref.mk 7 "Pong"; Ref.mk 9 "Breakout"]) None.

End Scenario.

(** ** Reading the [search] literal *)

(** [s.slice(n)] *)
Fixpoint slice_from (n : nat) (s : string) : string :=
  match n, s with
  | O, _ => s
  | S n', String _ s' => slice_from n' s'
  | S _, EmptyString => EmptyString
  end.

(** What follows the opening quote of the [search] clause in a request body:
    the body without its first 15 characters (the newline, six spaces,
    [search ] and the quote). *)
Definition search_literal (body : string) : string := slice_from 15 body.

(** Where a string literal ends, reading the text after its opening quote:
    the position of the first double quote that is not part of an escape, a
    backslash forming an escape with the character after it when that
    character is [escapable].  The escaping of [searchGames] writes a
    backslash and a double quote for a quote of the query, so it relies on a
    reader for which the double quote is escapable.  [None]: the literal is
    never closed. *)
Fixpoint literal_end (escapable : ascii → bool) (s : string) : option nat :=
  match s with
  | EmptyString => None
  | String a s' =>
      if Ascii.eqb a dquote then Some O
      else if Ascii.eqb a backslash then
        match s' with
        | EmptyString => None
        | String b s'' =>
            if escapable b then (λ k, S (S k)) <$> literal_end escapable s''
            else S <$> literal_end escapable s'
        end
      else S <$> literal_end escapable s'
  end.

(** A reader for which a backslash escapes whatever follows it, and one for
    which it escapes a double quote only. *)
Definition escapes_any : ascii → bool := λ _, true.
Definition escapes_quote_only : ascii → bool := λ b, Ascii.eqb b dquote.

(** Whether [c] occurs in [s]. *)
Fixpoint mentions (c : ascii) (s : string) : bool :=
  match s with
  | EmptyString => false
  | String a s' => Ascii.eqb a c || mentions c s'
  end.

(** A query that ends in a backslash. *)
Definition trailing_backslash : string := "zelda" +:+ String backslash "".

(** ** The [try] block of the tool handler *)

(** Lines 202-288 of [index.ts]: what [callToolHandler] runs inside its
    [try], before anything thrown reaches [on_error]. *)
Definition tool_call (rt : Runtime) (request : CallToolRequest.t) : M CallToolResult.t :=
  let name := Params.name (CallToolRequest.params request) in
  let args := Params.arguments (CallToolRequest.params request) in
  if String.eqb name "search_games" then
    let query := args ≫= Args.query in
    let limit := search_limit args in
    match query with
    | Some q =>
        if negb (to_boolean q)
        then mret (text_result "Error: query parameter is required" (Some true))
        else search_games rt q limit
    | None => mret (text_result "Error: query parameter is required" (Some true))
    end
  else if String.eqb name "get_game_details" then
    let gameId := args ≫= Args.game_id in
    match gameId with
    | Some id =>
        if negb (to_boolean id)
        then mret (text_result "Error: game_id parameter is required" (Some true))
        else get_game_details rt id
    | None => mret (text_result "Error: game_id parameter is required" (Some true))
    end
  else
    mret (text_result ("Unknown tool: " +:+ name) (Some true)).

(** ** String lemmas *)

Lemma append_cons a s t : String a s +:+ t = String a (s +:+ t).
Proof. reflexivity. Qed.

Lemma append_empty_l t : "" +:+ t = t.
Proof. reflexivity. Qed.

Lemma append_assoc s t u : (s +:+ t) +:+ u = s +:+ t +:+ u.
Proof.
  induction s as [|a s IH]; [reflexivity|].
  rewrite !append_cons. now rewrite IH.
Qed.

Lemma prefix_append p s : String.prefix p (p +:+ s) = true.
Proof.
  induction p as [|a p IH].
  - destruct s; reflexivity.
  - rewrite append_cons. cbn [String.prefix].
    destruct (ascii_dec a a) as [_|Hne]; [exact IH|now destruct Hne].
Qed.

Lemma includes_unfold needle s :
  includes needle s =
  if String.prefix needle s then true
  else match s with
       | EmptyString => false
       | String _ s' => includes needle s'
       end.
Proof. destruct s; reflexivity. Qed.

Lemma includes_here needle s : includes needle (needle +:+ s) = true.
Proof. rewrite includes_unfold. now rewrite prefix_append. Qed.

Lemma includes_append needle pre post :
  includes needle (pre +:+ needle +:+ post) = true.
Proof.
  induction pre as [|a pre IH].
  - rewrite append_empty_l. apply includes_here.
  - rewrite append_cons, includes_unfold.
    destruct (String.prefix needle _); [reflexivity|exact IH].
Qed.

Lemma includes_suffix needle pre : includes needle (pre +:+ needle) = true.
Proof.
  induction pre as [|a pre IH].
  - rewrite append_empty_l, includes_unfold.
    replace (String.prefix needle needle) with true; [reflexivity|].
    symmetry. induction needle as [|c n IHn]; [reflexivity|].
    cbn [String.prefix]. destruct (ascii_dec c c) as [_|Hne]; [exact IHn|now destruct Hne].
  - rewrite append_cons, includes_unfold.
    destruct (String.prefix needle _); [reflexivity|exact IH].
Qed.

Lemma replace_all_append c r s t :
  replace_all c r (s +:+ t) = replace_all c r s +:+ replace_all c r t.
Proof.
  induction s as [|a s IH]; [reflexivity|].
  rewrite append_cons. cbn [replace_all]. now rewrite IH, append_assoc.
Qed.

Lemma escape_quotes_append s t :
  escape_quotes (s +:+ t) = escape_quotes s +:+ escape_quotes t.
Proof. apply replace_all_append. Qed.

Lemma escape_quotes_dquote s :
  escape_quotes (String dquote s)
  = String backslash (String dquote (escape_quotes s)).
Proof. reflexivity. Qed.

Lemma escape_quotes_other a s :
  a ≠ dquote → escape_quotes (String a s) = String a (escape_quotes s).
Proof.
  intros Hne. unfold escape_quotes. cbn [replace_all].
  destruct (Ascii.eqb_spec a dquote) as [->|_]; [now destruct Hne|reflexivity].
Qed.

(** In the escaped text a double quote never stands bare. *)
Lemma escape_quotes_guarded q : ∀ x y,
  escape_quotes q = x +:+ String dquote y →
  ∃ x', x = x' +:+ String backslash "".
Proof.
  induction q as [|a q IH]; intros x y E.
  - destruct x; discriminate E.
  - destruct (Ascii.eqb_spec a dquote) as [->|Hne].
    + rewrite escape_quotes_dquote in E.
      destruct x as [|c x]; [discriminate E|].
      rewrite append_cons in E. injection E as <- E.
      destruct x as [|d x].
      * now exists "".
      * rewrite append_cons in E. injection E as <- E.
        destruct (IH _ _ E) as [x' ->].
        now exists (String backslash (String dquote x')).
    + rewrite (escape_quotes_other _ _ Hne) in E.
      destruct x as [|c x].
      * rewrite append_empty_l in E. injection E as E _. now destruct Hne.
      * rewrite append_cons in E. injection E as <- E.
        destruct (IH _ _ E) as [x' ->].
        now exists (String a x').
Qed.

(** ** The credential manager, step by step *)

Ltac run := unfold mbind, M_bind, mret, M_ret, throw, this, fetch, Date_now,
  set_tokenData; cbn [fst snd igdbClient wire ticks IGDBClient.tokenData
  IGDBClient.clientId IGDBClient.clientSecret TokenData.token TokenData.expiresAt].

Lemma getToken_fresh rt w td :
  IGDBClient.tokenData (igdbClient w) = Some td →
  clock rt (ticks w) < TokenData.expiresAt td - 300000 →
  getToken rt w
  = (Return (TokenData.token td), mkWorld (igdbClient w) (wire w) (S (ticks w))).
Proof.
  intros Htd Hlt. unfold getToken. run. rewrite Htd. run.
  apply Z.ltb_lt in Hlt. now rewrite Hlt.
Qed.

Lemma getToken_stale rt w :
  needs_refresh rt w = true → getToken rt w = refreshToken rt (after_guard w).
Proof.
  unfold needs_refresh, after_guard, getToken. run.
  destruct (IGDBClient.tokenData (igdbClient w)) as [td|]; [|reflexivity].
  run. intros H. apply negb_true_iff in H. now rewrite H.
Qed.

Lemma after_guard_client w : igdbClient (after_guard w) = igdbClient w.
Proof. unfold after_guard. now destruct (IGDBClient.tokenData _). Qed.

Lemma after_guard_wire w : wire (after_guard w) = wire w.
Proof. unfold after_guard. now destruct (IGDBClient.tokenData _). Qed.

Lemma token_response_after_guard rt w :
  token_response rt (after_guard w) = token_response rt w.
Proof. unfold token_response. now rewrite after_guard_client, after_guard_wire. Qed.

Lemma refreshToken_ok rt w :
  Response.ok (token_response rt w) = true →
  refreshToken rt w
  = (Return (OAuthToken.access_token (Response.json (token_response rt w))),
     mkWorld (store_token (igdbClient w) (Response.json (token_response rt w))
                          (clock rt (ticks w)))
             (wire w ++ [token_request (igdbClient w)])
             (S (ticks w))).
Proof.
  intros Hok. unfold refreshToken. run.
  fold (token_response rt w). now rewrite Hok.
Qed.

Lemma refreshToken_fail rt w :
  Response.ok (token_response rt w) = false →
  refreshToken rt w
  = (Throw (Error.New (auth_failure (token_response rt w))),
     mkWorld (igdbClient w) (wire w ++ [token_request (igdbClient w)]) (ticks w)).
Proof.
  intros Hok. unfold refreshToken. run.
  fold (token_response rt w). now rewrite Hok.
Qed.

(** ** The transport *)

Lemma request_with_token rt endpoint body w token w1 :
  getToken rt w = (Return token, w1) →
  request rt endpoint body w
  = let req := api_request (igdbClient w1) token endpoint body in
    let r := igdb rt (wire w1) req in
    (if Response.ok r then Return (Response.json r)
     else Throw (Error.New (api_failure r)),
     sent w1 req).
Proof.
  intros H. unfold request. run. rewrite H. run.
  now destruct (Response.ok _).
Qed.

Lemma request_without_token rt endpoint body w e w1 :
  getToken rt w = (Throw e, w1) →
  request rt endpoint body w = (Throw e, w1).
Proof. intros H. unfold request. run. now rewrite H. Qed.

Lemma api_request_not_identity c token endpoint body :
  is_identity_request (api_request c token endpoint body) = false.
Proof. reflexivity. Qed.

Lemma token_request_identity c : is_identity_request (token_request c) = true.
Proof. reflexivity. Qed.

(** ** Properties of the credential manager *)

(** C1.  With a credential cached whose expiry lies more than 300000 ms after
    the current clock reading, [getToken] returns the cached token, sends
    nothing and leaves the client (hence the cached credential) as it was;
    an operation started in that state sends the data request only. *)
Theorem getToken_cache_hit rt w td :
  IGDBClient.tokenData (igdbClient w) = Some td →
  clock rt (ticks w) < TokenData.expiresAt td - 300000 →
  (∃ w', getToken rt w = (Return (TokenData.token td), w')
         ∧ igdbClient w' = igdbClient w
         ∧ wire w' = wire w)
  ∧ ∀ endpoint body,
      ∃ req, wire (request rt endpoint body w).2 = wire w ++ [req]
             ∧ req = api_request (igdbClient w) (TokenData.token td) endpoint body
             ∧ identity_requests [req] = 0%nat.
Proof.
  intros Htd Hlt. pose proof (getToken_fresh rt w td Htd Hlt) as Hget. split.
  - eexists. split; [exact Hget|]. split; reflexivity.
  - intros endpoint body. eexists. split; [|split; [reflexivity|reflexivity]].
    rewrite (request_with_token _ _ _ _ _ _ Hget). reflexivity.
Qed.

(** C2.  With no credential cached, or one within 300000 ms of its expiry,
    an operation sends exactly one identity-provider request, and sends it
    first; when the provider answers with success, [getToken] returns the
    new token and the cached credential becomes that token with
    [expiresAt = now + expires_in * 1000], [now] being the clock reading taken
    when the answer is stored, and the data request follows bearing the new
    token. *)
Theorem getToken_cache_miss rt w endpoint body :
  needs_refresh rt w = true →
  let c := igdbClient w in
  let r := token_response rt w in
  let data := Response.json r in
  (∃ rest, wire (request rt endpoint body w).2 = wire w ++ token_request c :: rest
           ∧ identity_requests (token_request c :: rest) = 1%nat
           ∧ (Response.ok r = false → rest = [])
           ∧ (Response.ok r = true →
              ∃ c', rest = [api_request c' (OAuthToken.access_token data) endpoint body]))
  ∧ (Response.ok r = true →
     ∃ w' k, getToken rt w = (Return (OAuthToken.access_token data), w')
             ∧ ticks w' = S k
             ∧ IGDBClient.tokenData (igdbClient w')
               = Some (TokenData.mk (OAuthToken.access_token data)
                                    (clock rt k + OAuthToken.expires_in data * 1000))
             ∧ wire w' = wire w ++ [token_request c]).
Proof.
  intros Hstale c r data.
  pose proof (getToken_stale rt w Hstale) as Hget.
  assert (Hr : token_response rt (after_guard w) = r)
    by apply token_response_after_guard.
  destruct (Response.ok r) eqn:Hok.
  - rewrite refreshToken_ok in Hget by now rewrite Hr.
    rewrite Hr, after_guard_client, after_guard_wire in Hget. fold c data in Hget.
    split.
    + rewrite (request_with_token _ _ _ _ _ _ Hget). cbn [snd sent wire igdbClient].
      eexists. split; [now rewrite <- app_assoc|].
      split; [reflexivity|]. split; [discriminate|]. intros _. now eexists.
    + intros _. do 2 eexists. split; [exact Hget|]. now cbn.
  - rewrite refreshToken_fail in Hget by now rewrite Hr.
    rewrite Hr, after_guard_client, after_guard_wire in Hget. fold c in Hget.
    split; [|discriminate].
    rewrite (request_without_token _ _ _ _ _ _ Hget). cbn [snd wire].
    exists []. split; [reflexivity|]. split; [reflexivity|]. split; [reflexivity|discriminate].
Qed.

(** C3.  When the identity provider answers the token request with a
    non-success status, [getToken] throws the authentication error, whose
    message carries the status and the body text of the answer, and the
    client (hence the cached credential) is left as it was. *)
Theorem getToken_authentication_error rt w :
  needs_refresh rt w = true →
  Response.ok (token_response rt w) = false →
  let r := token_response rt w in
  ∃ msg w', getToken rt w = (Throw (Error.New msg), w')
            ∧ startsWith "Failed to authenticate with Twitch: " msg = true
            ∧ includes (number_to_string (Response.status r)) msg = true
            ∧ includes (Response.text r) msg = true
            ∧ igdbClient w' = igdbClient w.
Proof.
  intros Hstale Hok r.
  pose proof (getToken_stale rt w Hstale) as Hget.
  rewrite refreshToken_fail in Hget by now rewrite token_response_after_guard.
  rewrite token_response_after_guard, after_guard_client in Hget. fold r in Hget.
  do 2 eexists. split; [exact Hget|]. unfold auth_failure.
  split; [apply prefix_append|]. split; [apply includes_append|]. split; [|reflexivity].
  rewrite <- !append_assoc. apply includes_suffix.
Qed.

(** ** Properties of the two operations *)

Lemma getToken_wire rt w :
  wire (getToken rt w).2 = wire w
  ∨ wire (getToken rt w).2 = wire w ++ [token_request (igdbClient w)].
Proof.
  destruct (needs_refresh rt w) eqn:Hstale.
  - right. rewrite (getToken_stale _ _ Hstale).
    destruct (Response.ok (token_response rt (after_guard w))) eqn:Hok.
    + rewrite (refreshToken_ok _ _ Hok). cbn [snd wire].
      now rewrite after_guard_wire, after_guard_client.
    + rewrite (refreshToken_fail _ _ Hok). cbn [snd wire].
      now rewrite after_guard_wire, after_guard_client.
  - left. unfold needs_refresh in Hstale.
    destruct (IGDBClient.tokenData (igdbClient w)) as [td|] eqn:Htd; [|discriminate].
    apply negb_false_iff, Z.ltb_lt in Hstale.
    now rewrite (getToken_fresh _ _ _ Htd Hstale).
Qed.

(** Whatever an operation sends besides a token request is the data
    request for its endpoint and body. *)
Lemma request_wire rt endpoint body w :
  ∃ new, wire (request rt endpoint body w).2 = wire w ++ new
         ∧ ∀ f, In f new → is_identity_request f = false →
                Fetch.url f = "https://api.igdb.com/v4/" +:+ endpoint
                ∧ Fetch.body f = Some body.
Proof.
  pose proof (getToken_wire rt w) as Hw.
  destruct (getToken rt w) as [[token|e] w1] eqn:Hget; cbn [snd] in Hw.
  - rewrite (request_with_token _ _ _ _ _ _ Hget). cbn [snd sent wire].
    destruct Hw as [-> | ->].
    + eexists. split; [reflexivity|].
      intros f [<-|[]] _. now split.
    + eexists. split; [now rewrite <- app_assoc|].
      intros f [<-|[<-|[]]] Hid; [discriminate Hid|now split].
  - rewrite (request_without_token _ _ _ _ _ _ Hget). cbn [snd].
    destruct Hw as [-> | ->].
    + exists []. split; [now rewrite app_nil_r|]. intros f [].
    + eexists. split; [reflexivity|].
      intros f [<-|[]] Hid. discriminate Hid.
Qed.

(** Every data request [searchGames] sends goes to the games endpoint with
    the body built from its arguments. *)
Lemma searchGames_wire rt q n w :
  ∃ new, wire (searchGames rt q (Some n) w).2 = wire w ++ new
         ∧ ∀ f, In f new → is_identity_request f = false →
                Fetch.url f = "https://api.igdb.com/v4/games"
                ∧ Fetch.body f = Some (searchGames_body q n).
Proof.
  unfold searchGames. run. change (default 10 (Some n)) with n.
  destruct (request_wire rt "games" (searchGames_body q n) w) as (new & Hw & Hnew).
  exists new. split; [|exact Hnew].
  rewrite <- Hw. now destruct (request rt "games" (searchGames_body q n) w) as [[gs|e] w1].
Qed.

Ltac normalize_appends :=
  unfold searchGames_body, search_fields_clause, lines, NL;
  cbn [String.concat]; rewrite ?append_assoc.

(** C5.  When the data service answers the query of [getGameDetails] with
    success and an array of records, the result is absent ([null], not an
    error) for the empty array and the first record otherwise, whatever
    follows it. *)
Theorem getGameDetails_first_or_absent rt gameId w token w1 :
  getToken rt w = (Return token, w1) →
  let req := api_request (igdbClient w1) token "games" (getGameDetails_body gameId) in
  let response := igdb rt (wire w1) req in
  Response.ok response = true →
  (Response.json response = [] →
   getGameDetails rt gameId w = (Return None, sent w1 req))
  ∧ (∀ first later, Response.json response = first :: later →
     getGameDetails rt gameId w = (Return (Some first), sent w1 req)).
Proof.
  intros Hget req response Hok.
  assert (Hreq : request rt "games" (getGameDetails_body gameId) w
                 = (Return (Response.json response), sent w1 req)).
  { rewrite (request_with_token _ _ _ _ _ _ Hget). cbn zeta.
    fold req. fold response. now rewrite Hok. }
  split.
  - intros Hnil. unfold getGameDetails. run. rewrite Hreq, Hnil. reflexivity.
  - intros first later Hcons. unfold getGameDetails. run. rewrite Hreq, Hcons.
    reflexivity.
Qed.

(** ** The tool handler *)

Lemma handler_search rt args q w :
  args ≫= Args.query = Some q → to_boolean q = true →
  callToolHandler rt (call "search_games" args) w
  = try_catch (search_games rt q (search_limit args)) on_error w.
Proof.
  intros Hq Ht. unfold callToolHandler, call, try_catch.
  cbn [CallToolRequest.params Params.name Params.arguments String.eqb Ascii.eqb Bool.eqb].
  now rewrite Hq, Ht.
Qed.

Lemma handler_search_missing rt args w :
  to_boolean (args ≫= Args.query) = false →
  callToolHandler rt (call "search_games" args) w = (Return missing_query, w).
Proof.
  intros Hq. unfold callToolHandler, call, try_catch.
  cbn [CallToolRequest.params Params.name Params.arguments String.eqb Ascii.eqb Bool.eqb].
  destruct (args ≫= Args.query) as [q|]; [|reflexivity].
  cbn in Hq. now rewrite Hq.
Qed.

Lemma handler_details rt args id w :
  args ≫= Args.game_id = Some id → to_boolean id = true →
  callToolHandler rt (call "get_game_details" args) w
  = try_catch (get_game_details rt id) on_error w.
Proof.
  intros Hid Ht. unfold callToolHandler, call, try_catch.
  cbn [CallToolRequest.params Params.name Params.arguments String.eqb Ascii.eqb Bool.eqb].
  now rewrite Hid, Ht.
Qed.

Lemma handler_details_missing rt args w :
  to_boolean (args ≫= Args.game_id) = false →
  callToolHandler rt (call "get_game_details" args) w = (Return missing_game_id, w).
Proof.
  intros Hid. unfold callToolHandler, call, try_catch.
  cbn [CallToolRequest.params Params.name Params.arguments String.eqb Ascii.eqb Bool.eqb].
  destruct (args ≫= Args.game_id) as [id|]; [|reflexivity].
  cbn in Hid. now rewrite Hid.
Qed.

Lemma handler_unknown rt name args w :
  known_tool name = false →
  callToolHandler rt (call name args) w
  = (Return (text_result ("Unknown tool: " +:+ name) (Some true)), w).
Proof.
  unfold known_tool. intros H. apply orb_false_iff in H as [H1 H2].
  unfold callToolHandler, call, try_catch.
  cbn [CallToolRequest.params Params.name Params.arguments].
  now rewrite H1, H2.
Qed.

(** The search branch after the argument check, by outcome of the client. *)
Lemma search_branch rt q limit w :
  try_catch (search_games rt q limit) on_error w
  = match searchGames rt q (Some limit) w with
    | (Return games, w1) =>
        (Return (if Nat.eqb (length games) 0 then no_games_found q
                 else text_result
                        ("Found " +:+ number_to_string (Z.of_nat (length games))
                           +:+ " game(s) matching " +:+ String dquote q
                           +:+ String dquote ":" +:+ NL +:+ NL
                           +:+ join (NL +:+ NL +:+ "---" +:+ NL +:+ NL)
                                    (map (formatGame rt) games)) None), w1)
    | (Throw e, w1) =>
        (Return (text_result ("Error: " +:+ Error.message e) (Some true)), w1)
    end.
Proof.
  unfold try_catch, search_games, on_error. run.
  destruct (searchGames rt q (Some limit) w) as [[games|e] w1]; [|reflexivity].
  now destruct (Nat.eqb (length games) 0).
Qed.

(** The details branch after the argument check, by outcome of the client. *)
Lemma details_branch rt id w :
  try_catch (get_game_details rt id) on_error w
  = match getGameDetails rt id w with
    | (Return (Some game), w1) =>
        (Return (text_result (formatGameDetails rt game) None), w1)
    | (Return None, w1) => (Return (no_game_found id), w1)
    | (Throw e, w1) =>
        (Return (text_result ("Error: " +:+ Error.message e) (Some true)), w1)
    end.
Proof.
  unfold try_catch, get_game_details, on_error. run.
  destruct (getGameDetails rt id w) as [[[game|]|e] w1]; reflexivity.
Qed.

Lemma truthy_some {A} `{ToBoolean A} (o : option A) :
  to_boolean o = true → ∃ v, o = Some v ∧ to_boolean v = true.
Proof. destruct o as [v|]; [now exists v|discriminate]. Qed.

Lemma known_tool_cases name :
  known_tool name = true → name = "search_games" ∨ name = "get_game_details".
Proof.
  unfold known_tool. intros H. apply orb_true_iff in H as [H|H];
    apply String.eqb_eq in H; auto.
Qed.

Lemma handler_total rt request w :
  ∃ r w', callToolHandler rt request w = (Return r, w').
Proof.
  unfold callToolHandler, try_catch, on_error. run.
  destruct (_ w) as [[r|e] w']; eauto.
Qed.

Lemma handler_try rt req w :
  callToolHandler rt req w = try_catch (tool_call rt req) on_error w.
Proof. reflexivity. Qed.

(** [search_games] and [get_game_details] never return an error result:
    what they return is a normal result, what fails is thrown. *)
Lemma search_games_returns rt q limit w r w1 :
  search_games rt q limit w = (Return r, w1) → CallToolResult.isError r = None.
Proof.
  unfold search_games. run.
  destruct (searchGames rt q (Some limit) w) as [[games|e] w0]; [|discriminate].
  destruct (Nat.eqb (length games) 0); now intros [= <- _].
Qed.

Lemma get_game_details_returns rt id w r w1 :
  get_game_details rt id w = (Return r, w1) → CallToolResult.isError r = None.
Proof.
  unfold get_game_details. run.
  destruct (getGameDetails rt id w) as [[[game|]|e] w0]; [| |discriminate];
    now intros [= <- _].
Qed.

(** An error result that the [try] block of a known tool returns is one of
    the two refusals of a missing argument. *)
Lemma tool_call_refusal rt name args w r w1 :
  tool_call rt (call name args) w = (Return r, w1) →
  known_tool name = true →
  CallToolResult.isError r = Some true →
  r = missing_query ∨ r = missing_game_id.
Proof.
  intros Hrun Hknown Herr. unfold tool_call, call in Hrun.
  cbn [CallToolRequest.params Params.name Params.arguments] in Hrun.
  destruct (known_tool_cases _ Hknown) as [-> | ->];
    cbn [String.eqb Ascii.eqb Bool.eqb] in Hrun.
  - destruct (args ≫= Args.query) as [q|]; [|injection Hrun as <- _; now left].
    destruct (to_boolean q); cbn [negb] in Hrun; [|injection Hrun as <- _; now left].
    apply search_games_returns in Hrun. congruence.
  - destruct (args ≫= Args.game_id) as [id|]; [|injection Hrun as <- _; now right].
    destruct (to_boolean id); cbn [negb] in Hrun; [|injection Hrun as <- _; now right].
    apply get_game_details_returns in Hrun. congruence.
Qed.

Lemma handler_caught rt req w e w1 :
  tool_call rt req w = (Throw e, w1) →
  callToolHandler rt req w
  = (Return (text_result ("Error: " +:+ Error.message e) (Some true)), w1).
Proof. intros H. rewrite handler_try. unfold try_catch. now rewrite H. Qed.

Lemma handler_returned rt req w r w1 :
  tool_call rt req w = (Return r, w1) → callToolHandler rt req w = (Return r, w1).
Proof. intros H. rewrite handler_try. unfold try_catch. now rewrite H. Qed.

(** C6 (amended).  A tool call always yields a result.  For [search_games]
    and [get_game_details] an error result reads ["Error: "] followed by the
    underlying message: the text of the refusal of a missing argument, or the
    message of the error thrown inside the [try] block, whatever threw it.
    For any other tool name the error result reads ["Unknown tool: "] and the
    name.  A search without matches and a lookup without a record yield
    normal results, not marked as errors. *)
Theorem callToolHandler_results rt name args w :
  ∃ r w', callToolHandler rt (call name args) w = (Return r, w')
  ∧ (known_tool name = true → CallToolResult.isError r = Some true →
     ∃ msg, r = text_result ("Error: " +:+ msg) (Some true)
            ∧ (msg = "query parameter is required"
               ∨ msg = "game_id parameter is required"
               ∨ ∃ e, tool_call rt (call name args) w = (Throw e, w')
                      ∧ msg = Error.message e))
  ∧ (∀ e w1, tool_call rt (call name args) w = (Throw e, w1) →
             r = text_result ("Error: " +:+ Error.message e) (Some true) ∧ w' = w1)
  ∧ (known_tool name = false →
     r = text_result ("Unknown tool: " +:+ name) (Some true))
  ∧ (∀ q w1, name = "search_games" → args ≫= Args.query = Some q →
             to_boolean q = true →
             searchGames rt q (Some (search_limit args)) w = (Return [], w1) →
             r = no_games_found q ∧ CallToolResult.isError r = None)
  ∧ (∀ id w1, name = "get_game_details" → args ≫= Args.game_id = Some id →
              to_boolean id = true →
              getGameDetails rt id w = (Return None, w1) →
              r = no_game_found id ∧ CallToolResult.isError r = None).
Proof.
  destruct (handler_total rt (call name args) w) as (r & w' & Hrun).
  exists r, w'. split; [exact Hrun|].
  split; [|split; [|split; [|split]]].
  - intros Hknown Herr.
    destruct (tool_call rt (call name args) w) as [[r0|e] w1] eqn:Hbody.
    + rewrite (handler_returned _ _ _ _ _ Hbody) in Hrun. injection Hrun as <- <-.
      destruct (tool_call_refusal _ _ _ _ _ _ Hbody Hknown Herr) as [-> | ->];
        eexists; (split; [reflexivity|]); auto.
    + rewrite (handler_caught _ _ _ _ _ Hbody) in Hrun. injection Hrun as <- <-.
      eexists. split; [reflexivity|]. right. right. eauto.
  - intros e w1 Hbody. rewrite (handler_caught _ _ _ _ _ Hbody) in Hrun.
    now injection Hrun as <- <-.
  - intros Hunknown. rewrite (handler_unknown _ _ _ _ Hunknown) in Hrun.
    now injection Hrun as <- _.
  - intros q w1 -> Hq Ht Hs.
    rewrite (handler_search _ _ _ _ Hq Ht), search_branch, Hs in Hrun.
    now injection Hrun as <- _.
  - intros id w1 -> Hid Ht Hg.
    rewrite (handler_details _ _ _ _ Hid Ht), details_branch, Hg in Hrun.
    now injection Hrun as <- _.
Qed.

Lemma search_limit_absent args : args ≫= Args.limit = None → search_limit args = 10.
Proof. unfold search_limit. now intros ->. Qed.

Lemma search_limit_given args n :
  args ≫= Args.limit = Some n →
  search_limit args = if Z.eqb n 0 then 10 else Z.min n 50.
Proof.
  unfold search_limit, or_else, Math_min, to_boolean, Z_to_boolean. intros ->.
  now destruct (Z.eqb n 0).
Qed.

Lemma handler_search_wire rt q limit w :
  wire (try_catch (search_games rt q limit) on_error w).2
  = wire (searchGames rt q (Some limit) w).2.
Proof.
  rewrite search_branch. now destruct (searchGames rt q (Some limit) w) as [[gs|e] w1].
Qed.

(** C7 (amended).  A [search_games] call with a query runs [searchGames]
    with the handler's [limit]: the caller's number when it is not 0 and at
    most 50, 50 when it is larger, and 10 when the argument is absent or is
    0; every data request then sent carries the body built for that limit. *)
Theorem search_games_limit rt args q w :
  args ≫= Args.query = Some q → to_boolean q = true →
  let limit := search_limit args in
  callToolHandler rt (call "search_games" args) w
  = try_catch (search_games rt q limit) on_error w
  ∧ (∃ new, wire (callToolHandler rt (call "search_games" args) w).2 = wire w ++ new
            ∧ ∀ f, In f new → is_identity_request f = false →
                   Fetch.body f = Some (searchGames_body q limit))
  ∧ (args ≫= Args.limit = None → limit = 10)
  ∧ (∀ n, args ≫= Args.limit = Some n → n ≠ 0 → (n ≤ 50)%Z → limit = n)
  ∧ (∀ n, args ≫= Args.limit = Some n → (50 < n)%Z → limit = 50)
  ∧ (args ≫= Args.limit = Some 0 → limit = 10).
Proof.
  intros Hq Ht limit. pose proof (handler_search rt args q w Hq Ht) as Hrun.
  split; [exact Hrun|]. split; [|split; [|split; [|split]]].
  - rewrite Hrun, handler_search_wire.
    destruct (searchGames_wire rt q limit w) as (new & Hw & Hnew).
    exists new. split; [exact Hw|]. intros f Hin Hid. now apply Hnew.
  - apply search_limit_absent.
  - intros n Hn Hnz Hle. subst limit. rewrite (search_limit_given _ _ Hn).
    destruct (Z.eqb_spec n 0); [contradiction|]. lia.
  - intros n Hn Hgt. subst limit. rewrite (search_limit_given _ _ Hn).
    destruct (Z.eqb_spec n 0); lia.
  - intros Hn. subst limit. now rewrite (search_limit_given _ _ Hn).
Qed.

(** C8.  A [search_games] call without a [query] argument returns the error
    result saying the query parameter is required and leaves the world as
    it was: [searchGames] is not run and nothing is sent. *)
Theorem search_games_requires_query rt args w :
  args ≫= Args.query = None →
  callToolHandler rt (call "search_games" args) w = (Return missing_query, w)
  ∧ CallToolResult.isError missing_query = Some true
  ∧ result_text missing_query = "Error: query parameter is required"
  ∧ wire (callToolHandler rt (call "search_games" args) w).2 = wire w.
Proof.
  intros Hq.
  assert (Hrun : callToolHandler rt (call "search_games" args) w
                 = (Return missing_query, w))
    by (apply handler_search_missing; now rewrite Hq).
  now rewrite Hrun.
Qed.

(** C10.  A [get_game_details] call whose [game_id] is the number 0 returns
    the error result saying the game_id parameter is required, without
    running [getGameDetails] (the world is left as it was), exactly as a call
    without [game_id] does. *)
Theorem get_game_details_zero_id rt args w :
  args ≫= Args.game_id = Some 0 →
  callToolHandler rt (call "get_game_details" args) w = (Return missing_game_id, w)
  ∧ CallToolResult.isError missing_game_id = Some true
  ∧ result_text missing_game_id = "Error: game_id parameter is required"
  ∧ ∀ args', args' ≫= Args.game_id = None →
             callToolHandler rt (call "get_game_details" args') w
             = callToolHandler rt (call "get_game_details" args) w.
Proof.
  intros Hid.
  assert (Hrun : callToolHandler rt (call "get_game_details" args) w
                 = (Return missing_game_id, w))
    by (apply handler_details_missing; now rewrite Hid).
  rewrite Hrun. split; [reflexivity|]. split; [reflexivity|]. split; [reflexivity|].
  intros args' Hnone. apply handler_details_missing. now rewrite Hnone.
Qed.

(** ** Construction *)

Lemma constructor_run (process_env : gmap string string) :
  constructor process_env
  = match process_env !! "IGDB_CLIENT_ID", process_env !! "IGDB_CLIENT_SECRET" with
    | Some id, Some secret =>
        if to_boolean id && to_boolean secret
        then Return (IGDBClient.mk id secret None)
        else Throw (Error.New missing_credentials)
    | _, _ => Throw (Error.New missing_credentials)
    end.
Proof.
  unfold constructor.
  destruct (process_env !! "IGDB_CLIENT_ID") as [id|];
    destruct (process_env !! "IGDB_CLIENT_SECRET") as [secret|]; cbn; try reflexivity.
  - now destruct (to_boolean id), (to_boolean secret).
  - now destruct (to_boolean id).
Qed.

Lemma string_truthy (s : string) : s ≠ "" → to_boolean s = true.
Proof. destruct s; [congruence|reflexivity]. Qed.

(** C9 (amended).  When [IGDB_CLIENT_ID] or [IGDB_CLIENT_SECRET] is missing
    from the environment, or is set to the empty string, the constructor
    throws the missing-credentials error and yields no client; when both are
    set to non-empty strings it yields a client storing both, with no
    credential cached. *)
Theorem constructor_credentials (process_env : gmap string string) :
  (process_env !! "IGDB_CLIENT_ID" = None ∨ process_env !! "IGDB_CLIENT_SECRET" = None →
   constructor process_env = Throw (Error.New missing_credentials))
  ∧ (process_env !! "IGDB_CLIENT_ID" = Some ""
     ∨ process_env !! "IGDB_CLIENT_SECRET" = Some "" →
     constructor process_env = Throw (Error.New missing_credentials))
  ∧ (∀ id secret,
       process_env !! "IGDB_CLIENT_ID" = Some id →
       process_env !! "IGDB_CLIENT_SECRET" = Some secret →
       id ≠ "" → secret ≠ "" →
       constructor process_env = Return (IGDBClient.mk id secret None)).
Proof.
  rewrite constructor_run. split; [|split].
  - intros [-> | ->]; [reflexivity|].
    now destruct (process_env !! "IGDB_CLIENT_ID").
  - intros [-> | ->].
    + now destruct (process_env !! "IGDB_CLIENT_SECRET").
    + destruct (process_env !! "IGDB_CLIENT_ID") as [id|]; [|reflexivity].
      now rewrite andb_false_r.
  - intros id secret -> -> Hid Hsecret.
    now rewrite (string_truthy _ Hid), (string_truthy _ Hsecret).
Qed.

(** ** Concrete runs *)

Lemma getToken_cache_hit_witness :
  (∃ w', getToken Demo.rt Demo.w_cached = (Return "cached", w')
         ∧ igdbClient w' = igdbClient Demo.w_cached
         ∧ wire w' = wire Demo.w_cached)
  ∧ ∀ endpoint body,
      ∃ req, wire (request Demo.rt endpoint body Demo.w_cached).2 = wire Demo.w_cached ++ [req]
             ∧ req = api_request (igdbClient Demo.w_cached) "cached" endpoint body
             ∧ identity_requests [req] = 0%nat.
Proof.
  apply (getToken_cache_hit Demo.rt Demo.w_cached Demo.cached).
  - reflexivity.
  - vm_compute. reflexivity.
Defined.

Lemma getToken_cache_miss_witness :
  needs_refresh Demo.rt Demo.w = true
  ∧ ∃ w' k, getToken Demo.rt Demo.w = (Return "fresh", w')
            ∧ ticks w' = S k
            ∧ IGDBClient.tokenData (igdbClient w')
              = Some (TokenData.mk "fresh" (clock Demo.rt k + 3600 * 1000))
            ∧ wire w' = wire Demo.w ++ [token_request (igdbClient Demo.w)].
Proof.
  split; [reflexivity|].
  apply (getToken_cache_miss Demo.rt Demo.w "games" "" eq_refl). reflexivity.
Defined.

Lemma getToken_authentication_error_witness :
  ∃ msg w', getToken Demo.rt_denied Demo.w = (Throw (Error.New msg), w')
            ∧ startsWith "Failed to authenticate with Twitch: " msg = true
            ∧ includes "401" msg = true
            ∧ includes "invalid_client" msg = true
            ∧ igdbClient w' = igdbClient Demo.w.
Proof.
  apply (getToken_authentication_error Demo.rt_denied Demo.w); reflexivity.
Defined.

Lemma getGameDetails_first_or_absent_witness :
  getGameDetails Demo.rt 1920 Demo.w_cached
  = (Return (Some Demo.tactics),
     sent (mkWorld (igdbClient Demo.w_cached) [] 1)
          (api_request (igdbClient Demo.w_cached) "cached" "games"
                       (getGameDetails_body 1920))).
Proof.
  refine (proj2 (getGameDetails_first_or_absent Demo.rt 1920 Demo.w_cached "cached"
                   (mkWorld (igdbClient Demo.w_cached) [] 1) _ _) Demo.tactics [] _);
    reflexivity.
Defined.

(** The claim fails for a tool the server does not know: the result is
    marked as an error and its text does not begin with ["Error:"]. *)
Lemma unknown_tool_counterexample :
  callToolHandler Demo.rt (call "frobnicate" None) Demo.w
  = (Return (text_result "Unknown tool: frobnicate" (Some true)), Demo.w)
  ∧ CallToolResult.isError (text_result "Unknown tool: frobnicate" (Some true)) = Some true
  ∧ startsWith "Error:" (result_text (text_result "Unknown tool: frobnicate" (Some true)))
    = false.
Proof. repeat split. Qed.

Lemma callToolHandler_results_witness :
  (∃ msg,
      text_result "Error: Failed to authenticate with Twitch: 401 invalid_client" (Some true)
      = text_result ("Error: " +:+ msg) (Some true)
      ∧ (msg = "query parameter is required"
         ∨ msg = "game_id parameter is required"
         ∨ ∃ e, tool_call Demo.rt_denied
                  (call "search_games" (Some (Args.mk (Some "tactics") None None))) Demo.w
                = (Throw e, mkWorld (igdbClient Demo.w) [token_request (igdbClient Demo.w)] 0)
                ∧ msg = Error.message e))
  ∧ (∃ r w',
        callToolHandler Demo.rt_empty
          (call "search_games" (Some (Args.mk (Some "tactics") None None))) Demo.w
        = (Return r, w')
        ∧ r = no_games_found "tactics"
        ∧ CallToolResult.isError r = None).
Proof.
  split.
  - destruct (callToolHandler_results Demo.rt_denied "search_games"
                (Some (Args.mk (Some "tactics") None None)) Demo.w)
      as (r & w' & Hrun & Herr & _).
    vm_compute in Hrun. injection Hrun as <- <-.
    exact (Herr eq_refl eq_refl).
  - destruct (callToolHandler_results Demo.rt_empty "search_games"
                (Some (Args.mk (Some "tactics") None None)) Demo.w)
      as (r & w' & Hrun & _ & _ & _ & Hnone & _).
    exists r, w'. split; [exact Hrun|].
    refine (Hnone "tactics" _ eq_refl eq_refl eq_refl _).
    vm_compute. reflexivity.
Defined.

(** The claim fails for a limit of 0: it is at most 50, yet the limit handed
    to [searchGames], and sent in the request body, is 10. *)
Lemma search_limit_zero_counterexample :
  let args := Some (Args.mk (Some "zelda") (Some 0) None) in
  (0 ≤ 50)%Z
  ∧ search_limit args = 10
  ∧ search_limit args ≠ 0
  ∧ map Fetch.body (wire (callToolHandler Demo.rt (call "search_games" args) Demo.w).2)
    = [None; Some (searchGames_body "zelda" 10)].
Proof.
  cbn zeta. split; [lia|]. split; [reflexivity|]. split; [discriminate|].
  vm_compute. reflexivity.
Qed.

Lemma search_games_limit_witness :
  search_limit (Some (Args.mk (Some "zelda") (Some 25) None)) = 25
  ∧ search_limit (Some (Args.mk (Some "zelda") (Some 80) None)) = 50
  ∧ search_limit (Some (Args.mk (Some "zelda") None None)) = 10
  ∧ search_limit (Some (Args.mk (Some "zelda") (Some 0) None)) = 10.
Proof.
  split; [|split; [|split]].
  - refine (proj1 (proj2 (proj2 (proj2
      (search_games_limit Demo.rt (Some (Args.mk (Some "zelda") (Some 25) None))
         "zelda" Demo.w eq_refl eq_refl)))) 25 eq_refl _ _); [discriminate|lia].
  - refine (proj1 (proj2 (proj2 (proj2 (proj2
      (search_games_limit Demo.rt (Some (Args.mk (Some "zelda") (Some 80) None))
         "zelda" Demo.w eq_refl eq_refl))))) 80 eq_refl _); lia.
  - exact (proj1 (proj2 (proj2
      (search_games_limit Demo.rt (Some (Args.mk (Some "zelda") None None))
         "zelda" Demo.w eq_refl eq_refl))) eq_refl).
  - exact (proj2 (proj2 (proj2 (proj2 (proj2
      (search_games_limit Demo.rt (Some (Args.mk (Some "zelda") (Some 0) None))
         "zelda" Demo.w eq_refl eq_refl))))) eq_refl).
Defined.

Lemma search_games_requires_query_witness :
  callToolHandler Demo.rt (call "search_games" (Some (Args.mk None (Some 5) None))) Demo.w
  = (Return missing_query, Demo.w)
  ∧ CallToolResult.isError missing_query = Some true
  ∧ result_text missing_query = "Error: query parameter is required"
  ∧ wire (callToolHandler Demo.rt
            (call "search_games" (Some (Args.mk None (Some 5) None))) Demo.w).2
    = wire Demo.w.
Proof.
  apply (search_games_requires_query Demo.rt (Some (Args.mk None (Some 5) None)) Demo.w).
  reflexivity.
Defined.

(** The claim fails for a variable that is set, but to the empty string:
    both variables are present and the constructor throws. *)
Lemma constructor_empty_counterexample :
  Demo.env "abc123" "" !! "IGDB_CLIENT_ID" = Some "abc123"
  ∧ Demo.env "abc123" "" !! "IGDB_CLIENT_SECRET" = Some ""
  ∧ constructor (Demo.env "abc123" "") = Throw (Error.New missing_credentials).
Proof. repeat split. Qed.

Lemma constructor_credentials_witness :
  constructor (Demo.env "abc123" "s3cret") = Return (IGDBClient.mk "abc123" "s3cret" None)
  ∧ constructor (∅ : gmap string string) = Throw (Error.New missing_credentials).
Proof.
  split.
  - refine (proj2 (proj2 (constructor_credentials (Demo.env "abc123" "s3cret")))
              "abc123" "s3cret" eq_refl eq_refl _ _); discriminate.
  - exact (proj1 (constructor_credentials ∅) (or_introl eq_refl)).
Defined.

Lemma get_game_details_zero_id_witness :
  callToolHandler Demo.rt (call "get_game_details" (Some (Args.mk None None (Some 0)))) Demo.w
  = (Return missing_game_id, Demo.w).
Proof.
  exact (proj1 (get_game_details_zero_id Demo.rt (Some (Args.mk None None (Some 0)))
                  Demo.w eq_refl)).
Defined.

(** ** Further properties: escaping *)

Lemma length_append s t :
  String.length (s +:+ t) = (String.length s + String.length t)%nat.
Proof.
  induction s as [|a s IH]; [reflexivity|].
  rewrite append_cons. cbn [String.length]. now rewrite IH.
Qed.

Lemma includes_skip needle pre s :
  includes needle s = true → includes needle (pre +:+ s) = true.
Proof.
  intros H. induction pre as [|a pre IH]; [exact H|].
  rewrite append_cons, includes_unfold.
  now destruct (String.prefix needle _).
Qed.

Lemma includes_join x sep ls : In x ls → includes x (join sep ls) = true.
Proof.
  unfold join. induction ls as [|l ls IH]; [intros []|].
  intros [-> | Hin].
  - destruct ls as [|l' ls]; cbn [String.concat].
    + apply (includes_suffix x "").
    + apply includes_here.
  - destruct ls as [|l' ls]; [destruct Hin|].
    cbn [String.concat]. apply includes_skip, includes_skip. exact (IH Hin).
Qed.

(** X1.  Escaping lengthens the query by one character for each double quote. *)
Theorem escape_quotes_length q :
  String.length (escape_quotes q) = (String.length q + count_quotes q)%nat.
Proof.
  induction q as [|a q IH]; [reflexivity|].
  cbn [count_quotes String.length].
  destruct (Ascii.eqb_spec a dquote) as [->|Hne].
  - rewrite escape_quotes_dquote. cbn [String.length]. rewrite IH. lia.
  - rewrite (escape_quotes_other _ _ Hne). cbn [String.length]. rewrite IH. lia.
Qed.

Lemma count_quotes_zero_escape q : count_quotes q = 0%nat → escape_quotes q = q.
Proof.
  induction q as [|a q IH]; [reflexivity|].
  cbn [count_quotes]. destruct (Ascii.eqb_spec a dquote) as [->|Hne]; [discriminate|].
  intros H. rewrite (escape_quotes_other _ _ Hne). now rewrite IH.
Qed.

(** X2.  A query goes into the request as it is exactly when it holds no double
    quote. *)
Theorem escape_quotes_identity q : escape_quotes q = q ↔ count_quotes q = 0%nat.
Proof.
  split; [|apply count_quotes_zero_escape].
  intros H. pose proof (escape_quotes_length q) as Hlen. rewrite H in Hlen. lia.
Qed.

(** X3.  Two different queries never escape to the same text. *)
Theorem escape_quotes_injective a : ∀ b, escape_quotes a = escape_quotes b → a = b.
Proof.
  assert (Hbare : ∀ q y, escape_quotes q ≠ String dquote y).
  { intros q y E. destruct (escape_quotes_guarded q "" y E) as [x' Hx'].
    destruct x'; discriminate Hx'. }
  induction a as [|c a IH]; intros [|d b] E.
  - reflexivity.
  - destruct (Ascii.eqb_spec d dquote) as [->|Hd].
    + rewrite escape_quotes_dquote in E. discriminate E.
    + rewrite (escape_quotes_other _ _ Hd) in E. discriminate E.
  - destruct (Ascii.eqb_spec c dquote) as [->|Hc].
    + rewrite escape_quotes_dquote in E. discriminate E.
    + rewrite (escape_quotes_other _ _ Hc) in E. discriminate E.
  - destruct (Ascii.eqb_spec c dquote) as [->|Hc];
      destruct (Ascii.eqb_spec d dquote) as [->|Hd].
    + rewrite !escape_quotes_dquote in E. injection E as E. now rewrite (IH _ E).
    + rewrite escape_quotes_dquote, (escape_quotes_other _ _ Hd) in E.
      injection E as <- E. symmetry in E. now destruct (Hbare _ _ E).
    + rewrite escape_quotes_dquote, (escape_quotes_other _ _ Hc) in E.
      injection E as -> E. now destruct (Hbare _ _ E).
    + rewrite (escape_quotes_other _ _ Hc), (escape_quotes_other _ _ Hd) in E.
      injection E as -> E. now rewrite (IH _ E).
Qed.

Lemma escape_quotes_injective_witness :
  Demo.quoted = Demo.quoted ∧ escape_quotes Demo.quoted ≠ escape_quotes "say hi".
Proof.
  split.
  - exact (escape_quotes_injective Demo.quoted Demo.quoted eq_refl).
  - intros E. apply escape_quotes_injective in E. discriminate E.
Defined.

Lemma escape_quotes_identity_witness : escape_quotes "Final Fantasy: Tactics" = "Final Fantasy: Tactics".
Proof. apply escape_quotes_identity. reflexivity. Defined.

(** X4.  A backslash of the query is copied without an escape of its own, so a
    query that ends in a backslash puts it directly before the closing quote
    of the [search] literal. *)
Theorem searchGames_backslash_unescaped q n :
  escape_quotes (q +:+ String backslash "") = escape_quotes q +:+ String backslash ""
  ∧ includes (escape_quotes q +:+ String backslash (String dquote ";"))
             (searchGames_body (q +:+ String backslash "") n) = true.
Proof.
  assert (E : escape_quotes (q +:+ String backslash "")
              = escape_quotes q +:+ String backslash "")
    by now rewrite escape_quotes_append.
  split; [exact E|].
  replace (searchGames_body (q +:+ String backslash "") n) with
    ((NL +:+ "      search " +:+ String dquote "")
       +:+ (escape_quotes q +:+ String backslash (String dquote ";"))
       +:+ NL +:+ search_fields_clause +:+ NL
       +:+ "      limit " +:+ number_to_string n +:+ ";" +:+ NL +:+ "    ")
    by (unfold searchGames_body; rewrite E;
        change (String dquote (escape_quotes q +:+ String backslash ""))
          with (String dquote "" +:+ escape_quotes q +:+ String backslash "");
        normalize_appends; reflexivity).
  apply includes_append.
Qed.

(** ** The [search] literal and the backslash *)

(** The reader passes over the escaped text of a query without backslashes
    and stops at the quote after it. *)
Lemma literal_end_escaped escapable q tail :
  escapable dquote = true → mentions backslash q = false →
  literal_end escapable (escape_quotes q +:+ String dquote tail)
  = Some (String.length (escape_quotes q)).
Proof.
  intros Hesc. induction q as [|a q IH]; intros Hq.
  - reflexivity.
  - cbn [mentions] in Hq. apply orb_false_iff in Hq as [Ha Hq].
    destruct (Ascii.eqb_spec a dquote) as [->|Hne].
    + rewrite escape_quotes_dquote, !append_cons. cbn [literal_end String.length].
      change (Ascii.eqb backslash dquote) with false.
      change (Ascii.eqb backslash backslash) with true. cbn iota.
      rewrite Hesc, (IH Hq). reflexivity.
    + rewrite (escape_quotes_other _ _ Hne), append_cons. cbn [literal_end String.length].
      apply Ascii.eqb_neq in Hne. rewrite Hne, Ha, (IH Hq). reflexivity.
Qed.

(** After a query that ends in its only backslash, the reader takes that
    backslash and the quote after it for an escape and reads on. *)
Lemma literal_end_trailing escapable q tail :
  escapable dquote = true → mentions backslash q = false →
  literal_end escapable
    (escape_quotes (q +:+ String backslash "") +:+ String dquote tail)
  = (λ k, (String.length (escape_quotes q) + 2 + k)%nat) <$> literal_end escapable tail.
Proof.
  intros Hesc. induction q as [|a q IH]; intros Hq.
  - change (escape_quotes ("" +:+ String backslash "") +:+ String dquote tail)
      with (String backslash (String dquote tail)).
    cbn [literal_end].
    change (Ascii.eqb backslash dquote) with false.
    change (Ascii.eqb backslash backslash) with true. cbn iota.
    rewrite Hesc. now destruct (literal_end escapable tail).
  - cbn [mentions] in Hq. apply orb_false_iff in Hq as [Ha Hq].
    destruct (Ascii.eqb_spec a dquote) as [->|Hne].
    + rewrite append_cons, !escape_quotes_dquote, !append_cons.
      cbn [literal_end String.length].
      change (Ascii.eqb backslash dquote) with false.
      change (Ascii.eqb backslash backslash) with true. cbn iota.
      rewrite Hesc, (IH Hq).
      destruct (literal_end escapable tail); [|reflexivity].
      unfold fmap, option_fmap, option_map. f_equal.
    + rewrite append_cons, (escape_quotes_other a (q +:+ _) Hne),
        (escape_quotes_other a q Hne), append_cons.
      cbn [literal_end String.length].
      apply Ascii.eqb_neq in Hne. rewrite Hne, Ha, (IH Hq).
      destruct (literal_end escapable tail); [|reflexivity].
      unfold fmap, option_fmap, option_map. f_equal.
Qed.

Lemma search_literal_body q n :
  search_literal (searchGames_body q n)
  = escape_quotes q
      +:+ String dquote (";" +:+ NL +:+ search_fields_clause +:+ NL
                           +:+ "      limit " +:+ number_to_string n +:+ ";"
                           +:+ NL +:+ "    ").
Proof.
  unfold search_literal.
  replace (searchGames_body q n) with
    ((NL +:+ "      search " +:+ String dquote "")
       +:+ escape_quotes q
       +:+ String dquote "" +:+ ";" +:+ NL +:+ search_fields_clause +:+ NL
       +:+ "      limit " +:+ number_to_string n +:+ ";" +:+ NL +:+ "    ")
    by (unfold searchGames_body;
        change (String dquote (escape_quotes q))
          with (String dquote "" +:+ escape_quotes q);
        normalize_appends; reflexivity).
  reflexivity.
Qed.

(** For a query without backslashes the [search] literal ends at the quote
    the template closes it with. *)
Lemma search_literal_closes escapable q n :
  escapable dquote = true → mentions backslash q = false →
  literal_end escapable (search_literal (searchGames_body q n))
  = Some (String.length (escape_quotes q)).
Proof.
  intros Hesc Hq. rewrite search_literal_body. now apply literal_end_escaped.
Qed.

(** For a query that ends in its only backslash it does not. *)
Lemma search_literal_overruns escapable q n :
  escapable dquote = true → mentions backslash q = false →
  literal_end escapable (search_literal (searchGames_body (q +:+ String backslash "") n))
  ≠ Some (String.length (escape_quotes (q +:+ String backslash ""))).
Proof.
  intros Hesc Hq. rewrite search_literal_body, (literal_end_trailing _ _ _ Hesc Hq).
  rewrite escape_quotes_append, length_append. cbn [escape_quotes replace_all String.length].
  destruct (literal_end escapable _); cbn; [intros [=]; lia|discriminate].
Qed.

(** C4.  [searchGames] escapes the double quotes of the query and nothing
    else.  For the query [zelda\] (ending in a backslash) and limit 10 there
    is no quote to escape, the request goes out with [search "zelda\";] in its
    body, and the literal opened after [search] is never closed: the
    backslash takes the closing quote for an escape, whether the reader lets
    a backslash escape every character or the double quote only.  A query
    with quotes and no backslash is closed where the template closes it. *)
Theorem searchGames_unclosed_literal :
  let body := searchGames_body trailing_backslash 10 in
  searchGames Demo.rt trailing_backslash (Some 10) Demo.w_cached
  = (Return [Demo.tactics],
     sent (mkWorld (igdbClient Demo.w_cached) [] 1)
          (api_request (igdbClient Demo.w_cached) "cached" "games" body))
  ∧ escape_quotes trailing_backslash = trailing_backslash
  ∧ includes ("search " +:+ String dquote trailing_backslash +:+ String dquote ";") body
    = true
  ∧ literal_end escapes_any (search_literal body) = None
  ∧ literal_end escapes_quote_only (search_literal body) = None
  ∧ literal_end escapes_any (search_literal (searchGames_body Demo.quoted 10))
    = Some (String.length (escape_quotes Demo.quoted)).
Proof.
  cbn zeta. split; [reflexivity|]. split; [reflexivity|].
  split; [vm_compute; reflexivity|]. split; [vm_compute; reflexivity|].
  split; vm_compute; reflexivity.
Qed.

(** ** Further properties: credential and transport *)

Lemma getToken_cases rt w :
  (needs_refresh rt w = false
   ∧ ∃ td, IGDBClient.tokenData (igdbClient w) = Some td
           ∧ getToken rt w
             = (Return (TokenData.token td), mkWorld (igdbClient w) (wire w) (S (ticks w))))
  ∨ (needs_refresh rt w = true
     ∧ Response.ok (token_response rt w) = true
     ∧ getToken rt w
       = (Return (OAuthToken.access_token (Response.json (token_response rt w))),
          mkWorld (store_token (igdbClient w) (Response.json (token_response rt w))
                               (clock rt (ticks (after_guard w))))
                  (wire w ++ [token_request (igdbClient w)])
                  (S (ticks (after_guard w)))))
  ∨ (needs_refresh rt w = true
     ∧ Response.ok (token_response rt w) = false
     ∧ getToken rt w
       = (Throw (Error.New (auth_failure (token_response rt w))),
          mkWorld (igdbClient w) (wire w ++ [token_request (igdbClient w)])
                  (ticks (after_guard w)))).
Proof.
  destruct (needs_refresh rt w) eqn:Hstale.
  - right. rewrite (getToken_stale _ _ Hstale).
    pose proof (token_response_after_guard rt w) as Hr.
    destruct (Response.ok (token_response rt w)) eqn:Hok.
    + left. rewrite refreshToken_ok by now rewrite Hr.
      now rewrite Hr, after_guard_client, after_guard_wire.
    + right. rewrite refreshToken_fail by now rewrite Hr.
      now rewrite Hr, after_guard_client, after_guard_wire.
  - left. split; [reflexivity|]. unfold needs_refresh in Hstale.
    destruct (IGDBClient.tokenData (igdbClient w)) as [td|] eqn:Htd; [|discriminate].
    apply negb_false_iff, Z.ltb_lt in Hstale.
    exists td. split; [reflexivity|]. now apply getToken_fresh.
Qed.

(** Whatever [getToken] returns is the token cached afterwards, and the
    configured identifier and secret are the ones from before. *)
Lemma getToken_returns_cached rt w token w1 :
  getToken rt w = (Return token, w1) →
  (∃ td, IGDBClient.tokenData (igdbClient w1) = Some td ∧ TokenData.token td = token)
  ∧ IGDBClient.clientId (igdbClient w1) = IGDBClient.clientId (igdbClient w)
  ∧ IGDBClient.clientSecret (igdbClient w1) = IGDBClient.clientSecret (igdbClient w).
Proof.
  intros Hget.
  destruct (getToken_cases rt w) as [(_ & td & Htd & E)|[(_ & _ & E)|(_ & _ & E)]];
    rewrite E in Hget; [| |discriminate Hget].
  - injection Hget as <- <-. cbn [igdbClient]. split; [now exists td|now split].
  - injection Hget as <- <-. cbn [igdbClient store_token IGDBClient.tokenData
      IGDBClient.clientId IGDBClient.clientSecret].
    split; [eexists; split; reflexivity|now split].
Qed.

Lemma getToken_keeps rt w :
  let w1 := (getToken rt w).2 in
  IGDBClient.clientId (igdbClient w1) = IGDBClient.clientId (igdbClient w)
  ∧ IGDBClient.clientSecret (igdbClient w1) = IGDBClient.clientSecret (igdbClient w)
  ∧ (is_Some (IGDBClient.tokenData (igdbClient w)) →
     is_Some (IGDBClient.tokenData (igdbClient w1))).
Proof.
  cbn zeta.
  destruct (getToken_cases rt w) as [(_ & td & Htd & E)|[(_ & _ & E)|(_ & _ & E)]];
    rewrite E; cbn [snd igdbClient store_token IGDBClient.tokenData
                    IGDBClient.clientId IGDBClient.clientSecret]; auto.
Qed.

(** The world an operation leaves is that of [getToken], with the data
    request added when a token was obtained. *)
Lemma request_world rt endpoint body w :
  (request rt endpoint body w).2
  = match getToken rt w with
    | (Return token, w1) => sent w1 (api_request (igdbClient w1) token endpoint body)
    | (Throw _, w1) => w1
    end.
Proof.
  destruct (getToken rt w) as [[token|e] w1] eqn:Hget.
  - now rewrite (request_with_token _ _ _ _ _ _ Hget).
  - now rewrite (request_without_token _ _ _ _ _ _ Hget).
Qed.

Lemma api_request_client c c' token endpoint body :
  IGDBClient.clientId c = IGDBClient.clientId c' →
  api_request c token endpoint body = api_request c' token endpoint body.
Proof. unfold api_request. now intros ->. Qed.

Lemma request_keeps rt endpoint body w :
  let w' := (request rt endpoint body w).2 in
  IGDBClient.clientId (igdbClient w') = IGDBClient.clientId (igdbClient w)
  ∧ IGDBClient.clientSecret (igdbClient w') = IGDBClient.clientSecret (igdbClient w)
  ∧ (is_Some (IGDBClient.tokenData (igdbClient w)) →
     is_Some (IGDBClient.tokenData (igdbClient w'))).
Proof.
  cbn zeta. rewrite request_world. pose proof (getToken_keeps rt w) as H.
  now destruct (getToken rt w) as [[token|e] w1].
Qed.

Lemma request_shape rt endpoint body w :
  ∃ pre post,
    wire (request rt endpoint body w).2 = wire w ++ pre ++ post
    ∧ (pre = [] ∨ pre = [token_request (igdbClient w)])
    ∧ (post = []
       ∨ ∃ token, post = [api_request (igdbClient w) token endpoint body]).
Proof.
  rewrite request_world.
  destruct (getToken_cases rt w) as [(_ & td & Htd & E)|[(_ & _ & E)|(_ & _ & E)]];
    rewrite E; cbn [sent wire igdbClient].
  - exists [], [api_request (igdbClient w) (TokenData.token td) endpoint body].
    split; [reflexivity|]. split; [now left|right; now eexists].
  - exists [token_request (igdbClient w)]. eexists.
    split; [now rewrite <- app_assoc|]. split; [now right|]. right.
    eexists. reflexivity.
  - exists [token_request (igdbClient w)], [].
    split; [now rewrite app_nil_r|]. split; [now right|now left].
Qed.

(** X5.  With a token obtained and a non-success answer of the data service, an
    operation throws the API error, whose message carries the status and the
    body text of the answer; the data request was sent once and the
    credential obtained stays cached. *)
Theorem request_api_error rt endpoint body w token w1 :
  getToken rt w = (Return token, w1) →
  let req := api_request (igdbClient w1) token endpoint body in
  let r := igdb rt (wire w1) req in
  Response.ok r = false →
  ∃ msg w', request rt endpoint body w = (Throw (Error.New msg), w')
            ∧ startsWith "IGDB API error: " msg = true
            ∧ includes (number_to_string (Response.status r)) msg = true
            ∧ includes (Response.text r) msg = true
            ∧ wire w' = wire w1 ++ [req]
            ∧ ∃ td, IGDBClient.tokenData (igdbClient w') = Some td
                    ∧ TokenData.token td = token.
Proof.
  intros Hget req r Hok.
  exists (api_failure r), (sent w1 req).
  split.
  { rewrite (request_with_token _ _ _ _ _ _ Hget). cbn zeta. fold req. fold r.
    now rewrite Hok. }
  unfold api_failure.
  split; [apply prefix_append|]. split; [apply includes_append|].
  split; [rewrite <- !append_assoc; apply includes_suffix|].
  split; [reflexivity|].
  exact (proj1 (getToken_returns_cached _ _ _ _ Hget)).
Qed.

(** X6.  Every data request an operation sends is a POST bearing the configured
    client identifier and, as bearer, the token that is cached once the
    operation is over. *)
Theorem request_bears_cached_token rt endpoint body w :
  let w' := (request rt endpoint body w).2 in
  ∃ new, wire w' = wire w ++ new
         ∧ ∀ f, In f new → is_identity_request f = false →
                ∃ td, IGDBClient.tokenData (igdbClient w') = Some td
                      ∧ Fetch.method f = "POST"
                      ∧ Fetch.headers f
                        = api_headers (IGDBClient.clientId (igdbClient w))
                                      (TokenData.token td).
Proof.
  cbn zeta. rewrite request_world.
  pose proof (getToken_wire rt w) as Hw.
  destruct (getToken rt w) as [[token|e] w1] eqn:Hget; cbn [snd] in Hw.
  - destruct (getToken_returns_cached _ _ _ _ Hget) as ((td & Htd & Htok) & Hid & _).
    assert (Hreq : ∀ f, f = api_request (igdbClient w1) token endpoint body →
              ∃ td, IGDBClient.tokenData (igdbClient w1) = Some td
                    ∧ Fetch.method f = "POST"
                    ∧ Fetch.headers f
                      = api_headers (IGDBClient.clientId (igdbClient w))
                                    (TokenData.token td)).
    { intros f ->. exists td. split; [exact Htd|]. split; [reflexivity|].
      unfold api_request, api_headers. cbn [Fetch.headers]. now rewrite Hid, Htok. }
    cbn [sent wire igdbClient]. destruct Hw as [-> | ->].
    + eexists. split; [reflexivity|]. intros f [<-|[]] _. now apply Hreq.
    + eexists. split; [now rewrite <- app_assoc|].
      intros f [<-|[<-|[]]] Hf; [discriminate Hf|now apply Hreq].
  - destruct Hw as [-> | ->].
    + exists []. split; [now rewrite app_nil_r|]. intros f [].
    + eexists. split; [reflexivity|]. intros f [<-|[]] Hf. discriminate Hf.
Qed.

(** X7.  A token just obtained is reused: while the clock reads less than its
    expiry minus 300000 ms, the next [getToken] returns it and sends
    nothing. *)
Theorem getToken_reuses_fresh_token rt w :
  needs_refresh rt w = true →
  Response.ok (token_response rt w) = true →
  let data := Response.json (token_response rt w) in
  let w1 := (getToken rt w).2 in
  (clock rt (ticks w1)
   < clock rt (pred (ticks w1)) + OAuthToken.expires_in data * 1000 - 300000)%Z →
  ∃ w2, getToken rt w1 = (Return (OAuthToken.access_token data), w2)
        ∧ wire w2 = wire w ++ [token_request (igdbClient w)]
        ∧ igdbClient w2 = igdbClient w1.
Proof.
  intros Hstale Hok data w1.
  destruct (getToken_cases rt w) as [(Hf & _)|[(_ & _ & E)|(_ & Hno & _)]];
    [congruence| |congruence].
  subst w1. rewrite E. cbn [snd ticks pred]. intros Hlt.
  pose proof (getToken_fresh rt
                (mkWorld (store_token (igdbClient w) data (clock rt (ticks (after_guard w))))
                         (wire w ++ [token_request (igdbClient w)])
                         (S (ticks (after_guard w))))
                _ eq_refl Hlt) as Hhit.
  eexists. split; [exact Hhit|]. split; reflexivity.
Qed.

(** X8.  A token that lives no longer than the 300000 ms margin is never reused:
    with a clock that does not run backwards, the state left by a successful
    refresh asks for a refresh again. *)
Theorem short_lived_token_not_reused rt w :
  monotone (clock rt) →
  needs_refresh rt w = true →
  Response.ok (token_response rt w) = true →
  (OAuthToken.expires_in (Response.json (token_response rt w)) * 1000 ≤ 300000)%Z →
  needs_refresh rt (getToken rt w).2 = true.
Proof.
  intros Hmono Hstale Hok Hshort.
  destruct (getToken_cases rt w) as [(Hf & _)|[(_ & _ & E)|(_ & Hno & _)]];
    [congruence| |congruence].
  rewrite E. unfold needs_refresh.
  cbn [snd igdbClient store_token IGDBClient.tokenData TokenData.expiresAt ticks].
  apply negb_true_iff, Z.ltb_ge.
  pose proof (Hmono (ticks (after_guard w))). lia.
Qed.

(** ** Further properties: the two operations *)

Lemma searchGames_run rt q limit w :
  searchGames rt q limit w = request rt "games" (searchGames_body q (default 10 limit)) w.
Proof.
  unfold searchGames. run.
  now destruct (request rt "games" (searchGames_body q (default 10 limit)) w) as [[gs|e] w1].
Qed.

Lemma getGameDetails_run rt gameId w :
  getGameDetails rt gameId w
  = match request rt "games" (getGameDetails_body gameId) w with
    | (Return games, w1) => (Return (head games), w1)
    | (Throw e, w1) => (Throw e, w1)
    end.
Proof.
  unfold getGameDetails. run.
  destruct (request rt "games" (getGameDetails_body gameId) w) as [[[|g gs]|e] w1];
    reflexivity.
Qed.

(** X9.  With a token obtained, [searchGames] sends one data request, built with
    limit 10 when the caller gives none, and hands back the array of the
    answer as it came, or throws the API error of a non-success answer. *)
Theorem searchGames_result rt q limit w token w1 :
  getToken rt w = (Return token, w1) →
  let req := api_request (igdbClient w1) token "games"
                         (searchGames_body q (default 10 limit)) in
  let r := igdb rt (wire w1) req in
  searchGames rt q limit w
  = (if Response.ok r then Return (Response.json r)
     else Throw (Error.New (api_failure r)),
     sent w1 req)
  ∧ (limit = None → Fetch.body req = Some (searchGames_body q 10)).
Proof.
  intros Hget req r. split; [|now intros ->].
  rewrite searchGames_run. now rewrite (request_with_token _ _ _ _ _ _ Hget).
Qed.

(** X10.  [getGameDetails] throws what fails: the authentication error when
    the identity provider refuses the token request, the API error when the
    data service answers with a non-success status.  Neither is reported as
    an absent game. *)
Theorem getGameDetails_failures_are_thrown rt gameId w :
  (needs_refresh rt w = true →
   Response.ok (token_response rt w) = false →
   ∃ w', getGameDetails rt gameId w
         = (Throw (Error.New (auth_failure (token_response rt w))), w'))
  ∧ (∀ token w1,
       getToken rt w = (Return token, w1) →
       let req := api_request (igdbClient w1) token "games" (getGameDetails_body gameId) in
       let r := igdb rt (wire w1) req in
       Response.ok r = false →
       getGameDetails rt gameId w = (Throw (Error.New (api_failure r)), sent w1 req)).
Proof.
  split.
  - intros Hstale Hok.
    destruct (getToken_cases rt w) as [(Hf & _)|[(_ & Hyes & _)|(_ & _ & E)]];
      [congruence|congruence|].
    eexists. rewrite getGameDetails_run.
    now rewrite (request_without_token _ _ _ _ _ _ E).
  - intros token w1 Hget req r Hok. rewrite getGameDetails_run.
    rewrite (request_with_token _ _ _ _ _ _ Hget). cbn zeta. fold req. fold r.
    now rewrite Hok.
Qed.

(** X11.  The body [getGameDetails] builds filters on the id as given, and no data
    request leaves [getGameDetails] for another endpoint or with another body. *)
Theorem getGameDetails_request_body rt gameId w :
  let body := getGameDetails_body gameId in
  includes ("where id = " +:+ number_to_string gameId +:+ ";") body = true
  ∧ includes "similar_games.name, similar_games.id," body = true
  ∧ ∃ new, wire (getGameDetails rt gameId w).2 = wire w ++ new
           ∧ ∀ f, In f new → is_identity_request f = false →
                  Fetch.url f = "https://api.igdb.com/v4/games"
                  ∧ Fetch.body f = Some body.
Proof.
  cbn zeta. split; [|split].
  - replace (getGameDetails_body gameId) with
      ((NL +:+ "      ")
         +:+ ("where id = " +:+ number_to_string gameId +:+ ";")
         +:+ NL +:+ "      fields name, summary, storyline, rating, aggregated_rating,"
         +:+ NL +:+ "             genres.name, themes.name, platforms.name,"
         +:+ NL +:+ "             first_release_date, cover.url,"
         +:+ NL +:+ "             involved_companies.company.name,"
         +:+ NL +:+ "             similar_games.name, similar_games.id,"
         +:+ NL +:+ "             game_modes.name;" +:+ NL +:+ "    ")
      by (unfold getGameDetails_body, lines, NL; cbn [String.concat];
          rewrite ?append_assoc; reflexivity).
    apply includes_append.
  - replace (getGameDetails_body gameId) with
      ((NL +:+ "      where id = " +:+ number_to_string gameId +:+ ";"
           +:+ NL +:+ "      fields name, summary, storyline, rating, aggregated_rating,"
           +:+ NL +:+ "             genres.name, themes.name, platforms.name,"
           +:+ NL +:+ "             first_release_date, cover.url,"
           +:+ NL +:+ "             involved_companies.company.name,"
           +:+ NL +:+ "             ")
         +:+ "similar_games.name, similar_games.id,"
         +:+ NL +:+ "             game_modes.name;" +:+ NL +:+ "    ")
      by (unfold getGameDetails_body, lines, NL; cbn [String.concat];
          rewrite ?append_assoc; reflexivity).
    apply includes_append.
  - destruct (request_wire rt "games" (getGameDetails_body gameId) w) as (new & Hw & Hnew).
    exists new. split; [|exact Hnew].
    rewrite getGameDetails_run, <- Hw.
    now destruct (request rt "games" (getGameDetails_body gameId) w) as [[gs|e] w1].
Qed.

(** ** Further properties: the tool handler *)

Lemma unknown_name name :
  name ≠ "search_games" → name ≠ "get_game_details" → known_tool name = false.
Proof.
  intros Hs Hd. unfold known_tool.
  apply String.eqb_neq in Hs. apply String.eqb_neq in Hd. now rewrite Hs, Hd.
Qed.

Lemma search_world rt q limit w :
  (try_catch (search_games rt q limit) on_error w).2
  = (request rt "games" (searchGames_body q limit) w).2.
Proof.
  rewrite search_branch, searchGames_run. change (default 10 (Some limit)) with limit.
  now destruct (request rt "games" (searchGames_body q limit) w) as [[gs|e] w1].
Qed.

Lemma details_world rt id w :
  (try_catch (get_game_details rt id) on_error w).2
  = (request rt "games" (getGameDetails_body id) w).2.
Proof.
  rewrite details_branch, getGameDetails_run.
  now destruct (request rt "games" (getGameDetails_body id) w) as [[[|g gs]|e] w1].
Qed.

(** A tool call leaves the world as it was, or as one operation of the
    client on the games endpoint leaves it. *)
Lemma handler_world rt req w :
  (callToolHandler rt req w).2 = w
  ∨ ∃ body, (callToolHandler rt req w).2 = (request rt "games" body w).2.
Proof.
  destruct req as [[name args]]. change (CallToolRequest.mk (Params.mk name args))
    with (call name args).
  destruct (String.eqb_spec name "search_games") as [->|Hs].
  - destruct (to_boolean (args ≫= Args.query)) eqn:Hq.
    + destruct (truthy_some _ Hq) as (q & Hsome & Ht).
      right. eexists. rewrite (handler_search _ _ _ _ Hsome Ht). apply search_world.
    + left. now rewrite (handler_search_missing _ _ _ Hq).
  - destruct (String.eqb_spec name "get_game_details") as [->|Hd].
    + destruct (to_boolean (args ≫= Args.game_id)) eqn:Hid.
      * destruct (truthy_some _ Hid) as (id & Hsome & Ht).
        right. eexists. rewrite (handler_details _ _ _ _ Hsome Ht). apply details_world.
      * left. now rewrite (handler_details_missing _ _ _ Hid).
    + left. now rewrite (handler_unknown _ _ _ _ (unknown_name _ Hs Hd)).
Qed.

(** X12.  One tool call sends at most one token request and at most one data
    request, the token request first and the data request to the games
    endpoint: nothing is retried and nothing else is contacted. *)
Theorem callToolHandler_fetches rt req w :
  ∃ pre post,
    wire (callToolHandler rt req w).2 = wire w ++ pre ++ post
    ∧ (pre = [] ∨ pre = [token_request (igdbClient w)])
    ∧ (post = []
       ∨ ∃ token body, post = [api_request (igdbClient w) token "games" body]).
Proof.
  destruct (handler_world rt req w) as [-> | (body & ->)].
  - exists [], []. split; [now rewrite app_nil_r|]. split; now left.
  - destruct (request_shape rt "games" body w) as (pre & post & Hw & Hpre & Hpost).
    exists pre, post. split; [exact Hw|]. split; [exact Hpre|].
    destruct Hpost as [->|(token & ->)]; [now left|right; eauto].
Qed.

(** X13.  A tool call never changes the configured client identifier and secret,
    and never empties the credential cache. *)
Theorem callToolHandler_keeps_credentials rt req w :
  let w' := (callToolHandler rt req w).2 in
  IGDBClient.clientId (igdbClient w') = IGDBClient.clientId (igdbClient w)
  ∧ IGDBClient.clientSecret (igdbClient w') = IGDBClient.clientSecret (igdbClient w)
  ∧ (is_Some (IGDBClient.tokenData (igdbClient w)) →
     is_Some (IGDBClient.tokenData (igdbClient w'))).
Proof.
  cbn zeta. destruct (handler_world rt req w) as [-> | (body & ->)].
  - auto.
  - apply request_keeps.
Qed.

(** X14.  The limit the handler hands to [searchGames] is never above 50 and never
    0; a negative limit of the caller is handed on as it is. *)
Theorem search_limit_bounds args :
  (search_limit args ≤ 50)%Z
  ∧ search_limit args ≠ 0
  ∧ (∀ n, args ≫= Args.limit = Some n → (n < 0)%Z → search_limit args = n).
Proof.
  destruct (args ≫= Args.limit) as [n|] eqn:Hn.
  - rewrite (search_limit_given _ _ Hn).
    destruct (Z.eqb_spec n 0); split; try lia; split; try lia; intros m [= <-]; lia.
  - rewrite (search_limit_absent _ Hn). split; [lia|]. split; [lia|]. intros m [=].
Qed.

(** X15.  An empty [query] string is refused like an absent one, and nothing is
    sent. *)
Theorem search_games_empty_query rt args w :
  args ≫= Args.query = Some "" →
  callToolHandler rt (call "search_games" args) w = (Return missing_query, w).
Proof. intros Hq. apply handler_search_missing. now rewrite Hq. Qed.

(** X16.  When the identity provider refuses the token request, either tool
    answers with an error result carrying the authentication message; the
    token request is all that was sent and the client is as before. *)
Theorem handler_reports_authentication_failure rt args w :
  needs_refresh rt w = true →
  Response.ok (token_response rt w) = false →
  let failed :=
    (Return (text_result ("Error: " +:+ auth_failure (token_response rt w)) (Some true)),
     mkWorld (igdbClient w) (wire w ++ [token_request (igdbClient w)])
             (ticks (after_guard w))) in
  (∀ q, args ≫= Args.query = Some q → to_boolean q = true →
        callToolHandler rt (call "search_games" args) w = failed)
  ∧ (∀ id, args ≫= Args.game_id = Some id → to_boolean id = true →
           callToolHandler rt (call "get_game_details" args) w = failed).
Proof.
  intros Hstale Hok failed.
  destruct (getToken_cases rt w) as [(Hf & _)|[(_ & Hyes & _)|(_ & _ & E)]];
    [congruence|congruence|].
  split.
  - intros q Hq Ht. rewrite (handler_search _ _ _ _ Hq Ht), search_branch.
    rewrite searchGames_run. now rewrite (request_without_token _ _ _ _ _ _ E).
  - intros id Hid Ht. rewrite (handler_details _ _ _ _ Hid Ht), details_branch.
    rewrite getGameDetails_run. now rewrite (request_without_token _ _ _ _ _ _ E).
Qed.

(** X17.  When the data service answers a search with a non-success status, the
    tool answers with an error result carrying the API error message. *)
Theorem handler_reports_api_failure rt args q w token w1 :
  args ≫= Args.query = Some q → to_boolean q = true →
  getToken rt w = (Return token, w1) →
  let req := api_request (igdbClient w1) token "games"
                         (searchGames_body q (search_limit args)) in
  let r := igdb rt (wire w1) req in
  Response.ok r = false →
  callToolHandler rt (call "search_games" args) w
  = (Return (text_result ("Error: IGDB API error: "
                            +:+ number_to_string (Response.status r)
                            +:+ " " +:+ Response.text r) (Some true)),
     sent w1 req).
Proof.
  intros Hq Ht Hget req r Hok.
  rewrite (handler_search _ _ _ _ Hq Ht), search_branch, searchGames_run.
  change (default 10 (Some (search_limit args))) with (search_limit args).
  rewrite (request_with_token _ _ _ _ _ _ Hget). cbn zeta. fold req. fold r.
  now rewrite Hok.
Qed.

(** X18.  A search that finds games answers with a normal result that opens with
    the number of games and the query, and holds the formatted text of every
    game found. *)
Theorem search_games_lists_every_game rt args q w games w1 :
  args ≫= Args.query = Some q → to_boolean q = true →
  searchGames rt q (Some (search_limit args)) w = (Return games, w1) →
  games ≠ [] →
  ∃ r, callToolHandler rt (call "search_games" args) w = (Return r, w1)
       ∧ CallToolResult.isError r = None
       ∧ startsWith (found_heading (length games) q) (result_text r) = true
       ∧ ∀ g, In g games → includes (formatGame rt g) (result_text r) = true.
Proof.
  intros Hq Ht Hs Hne.
  rewrite (handler_search _ _ _ _ Hq Ht), search_branch, Hs.
  destruct games as [|g0 gs]; [contradiction|]. cbn [length Nat.eqb].
  eexists. split; [reflexivity|]. split; [reflexivity|].
  cbn [result_text text_result CallToolResult.content TextContent.text].
  split.
  - unfold startsWith.
    match goal with
    | |- String.prefix ?h (_ +:+ _ +:+ _ +:+ _ +:+ _ +:+ ?rest) = true =>
        transitivity (String.prefix h (h +:+ rest));
        [f_equal; unfold found_heading; cbn [length]; rewrite ?append_assoc; reflexivity
        |apply prefix_append]
    end.
  - intros g Hin. do 7 apply includes_skip.
    apply includes_join. now apply in_map.
Qed.

(** ** Further properties: formatting *)

Lemma when_truthy_only {A} `{ToBoolean A} (x : option A) f :
  when (truthy_only x) f = when x f.
Proof.
  destruct x as [v|]; [|reflexivity]. unfold truthy_only, when.
  destruct (to_boolean v) eqn:E; [now rewrite E|reflexivity].
Qed.

Lemma when_nonempty_only {A} (xs : option (list A)) f :
  when_nonempty (nonempty_only xs) f = when_nonempty xs f.
Proof. now destruct xs as [[|x l]|]. Qed.

Lemma when_absent {A} `{ToBoolean A} (x : option A) f :
  truthy_only x = None → when x f = [].
Proof.
  destruct x as [v|]; [|reflexivity]. unfold truthy_only, when.
  now destruct (to_boolean v).
Qed.

Lemma when_nonempty_absent {A} (xs : option (list A)) f :
  nonempty_only xs = None → when_nonempty xs f = [].
Proof. now destruct xs as [[|x l]|]. Qed.

Lemma prefix_refl s : String.prefix s s = true.
Proof.
  induction s as [|a s IH]; [reflexivity|].
  cbn [String.prefix]. destruct (ascii_dec a a) as [_|Hne]; [exact IH|now destruct Hne].
Qed.

Lemma prefix_join_head sep h rest : String.prefix h (join sep (h :: rest)) = true.
Proof.
  unfold join. destruct rest; cbn [String.concat];
    [apply prefix_refl|apply prefix_append].
Qed.

Lemma prefix_join_two sep a b c rest :
  String.prefix (a +:+ sep +:+ b +:+ sep) (join sep (a :: b :: c :: rest)) = true.
Proof.
  unfold join.
  change (String.concat sep (a :: b :: c :: rest))
    with (a +:+ sep +:+ b +:+ sep +:+ String.concat sep (c :: rest)).
  replace (a +:+ sep +:+ b +:+ sep +:+ String.concat sep (c :: rest))
    with ((a +:+ sep +:+ b +:+ sep) +:+ String.concat sep (c :: rest))
    by (rewrite !append_assoc; reflexivity).
  apply prefix_append.
Qed.

(** X19.  Both formatters render a zero rating, a zero release date, an empty
    summary or storyline and an empty list of related entries exactly as if
    the field were absent. *)
Theorem formatters_take_falsy_as_absent rt g :
  formatGame rt (without_falsy g) = formatGame rt g
  ∧ formatGameDetails rt (without_falsy g) = formatGameDetails rt g.
Proof.
  destruct g. unfold formatGame, formatGameDetails, without_falsy.
  cbn [Game.id Game.name Game.summary Game.storyline Game.rating
       Game.aggregated_rating Game.first_release_date Game.genres Game.platforms
       Game.themes Game.game_modes Game.involved_companies Game.similar_games].
  now rewrite !when_truthy_only, !when_nonempty_only.
Qed.

(** X20.  The short form of a game opens with its name and id, and is nothing but
    that line when the game has no rating, release date, genre, platform or
    summary to show. *)
Theorem formatGame_heading rt g :
  startsWith (game_heading g) (formatGame rt g) = true
  ∧ (truthy_only (Game.rating g) = None →
     truthy_only (Game.aggregated_rating g) = None →
     truthy_only (Game.first_release_date g) = None →
     nonempty_only (Game.genres g) = None →
     nonempty_only (Game.platforms g) = None →
     truthy_only (Game.summary g) = None →
     formatGame rt g = game_heading g).
Proof.
  split.
  - unfold formatGame, startsWith. cbn [app]. apply prefix_join_head.
  - intros H1 H2 H3 H4 H5 H6. unfold formatGame.
    rewrite (when_absent _ _ H1), (when_absent _ _ H2), (when_absent _ _ H3),
      (when_nonempty_absent _ _ H4), (when_nonempty_absent _ _ H5),
      (when_absent _ _ H6).
    reflexivity.
Qed.

(** X21.  The long form of a game opens with its name and id, and names every
    similar game with its id. *)
Theorem formatGameDetails_content rt g :
  startsWith ("# " +:+ Game.name g +:+ NL +:+ "**IGDB ID:** "
                +:+ number_to_string (Game.id g) +:+ NL)
             (formatGameDetails rt g) = true
  ∧ ∀ similars similar,
      Game.similar_games g = Some similars → In similar similars →
      includes (similar_line similar) (formatGameDetails rt g) = true.
Proof.
  split.
  - exact (prefix_join_two NL ("# " +:+ Game.name g)
             ("**IGDB ID:** " +:+ number_to_string (Game.id g)) "" _).
  - intros similars similar Hs Hin. unfold formatGameDetails.
    apply includes_join. rewrite Hs.
    do 13 (apply in_or_app; right).
    destruct similars as [|s0 ss]; [destruct Hin|].
    cbn [when_nonempty length Z.of_nat Z.ltb Z.compare]. right.
    apply (in_map similar_line), Hin.
Qed.

(** ** Further properties: tool listing and start-up *)

Lemma listed_names name :
  In name (map Tool.name (ListToolsResult.tools listToolsHandler))
  ↔ name = "search_games" ∨ name = "get_game_details".
Proof.
  cbn. split.
  - intros [<-|[<-|[]]]; auto.
  - intros [->| ->]; auto.
Qed.

(** X22.  The tools the server lists are the tools its call handler serves: a
    listed name is never answered with the unknown-tool text, and any other
    name always is. *)
Theorem listed_tools_are_served rt name args w :
  (In name (map Tool.name (ListToolsResult.tools listToolsHandler)) →
   ∀ r w', callToolHandler rt (call name args) w = (Return r, w') →
           startsWith "Unknown tool: " (result_text r) = false)
  ∧ (¬ In name (map Tool.name (ListToolsResult.tools listToolsHandler)) →
     callToolHandler rt (call name args) w = (Return (unknown_tool name), w)).
Proof.
  rewrite listed_names. split.
  - intros [-> | ->] r w' Hrun.
    + destruct (to_boolean (args ≫= Args.query)) eqn:Hq.
      * destruct (truthy_some _ Hq) as (q & Hsome & Ht).
        rewrite (handler_search _ _ _ _ Hsome Ht), search_branch in Hrun.
        destruct (searchGames rt q (Some (search_limit args)) w) as [[games|e] w1].
        -- injection Hrun as <- _. now destruct (Nat.eqb (length games) 0).
        -- now injection Hrun as <- _.
      * rewrite (handler_search_missing _ _ _ Hq) in Hrun. now injection Hrun as <- _.
    + destruct (to_boolean (args ≫= Args.game_id)) eqn:Hid.
      * destruct (truthy_some _ Hid) as (id & Hsome & Ht).
        rewrite (handler_details _ _ _ _ Hsome Ht), details_branch in Hrun.
        destruct (getGameDetails rt id w) as [[[game|]|e] w1];
          now injection Hrun as <- _.
      * rewrite (handler_details_missing _ _ _ Hid) in Hrun. now injection Hrun as <- _.
  - intros Hnot. apply handler_unknown, unknown_name; intros ->; apply Hnot; auto.
Qed.

(** X23.  What the tool list promises, the call handler does: a call that lacks a
    parameter listed as required is refused by name, with nothing sent, and
    the default listed for [limit] is the limit used when none is given. *)
Theorem listed_schema_is_honoured rt tool w :
  In tool (ListToolsResult.tools listToolsHandler) →
  (∀ p args,
     In p (InputSchema.required (Tool.inputSchema tool)) →
     has_argument p args = false →
     callToolHandler rt (call (Tool.name tool) args) w
     = (Return (text_result ("Error: " +:+ p +:+ " parameter is required") (Some true)), w))
  ∧ (∀ schema d args,
       In ("limit", schema) (InputSchema.properties (Tool.inputSchema tool)) →
       PropertySchema.default schema = Some d →
       args ≫= Args.limit = None →
       search_limit args = d).
Proof.
  intros [<-|[<-|[]]]; split.
  - intros p args [<-|[]] Hp. apply handler_search_missing.
    cbn in Hp. apply bool_decide_eq_false in Hp.
    destruct (args ≫= Args.query); [destruct Hp; eauto|reflexivity].
  - intros schema d args [Hq|[Hl|[]]] Hd Hn; [discriminate Hq|].
    injection Hl as <-. injection Hd as <-. now apply search_limit_absent.
  - intros p args [<-|[]] Hp. apply handler_details_missing.
    cbn in Hp. apply bool_decide_eq_false in Hp.
    destruct (args ≫= Args.game_id); [destruct Hp; eauto|reflexivity].
  - intros schema d args [Hg|[]]. discriminate Hg.
Qed.

(** X24.  The process goes on only with both credentials set and not empty, then
    holding them and no token, so that its first operation begins with a
    token request; otherwise it logs the missing credentials and exits with
    status 1. *)
Theorem startup_outcomes (process_env : gmap string string) :
  (∀ w0, startup process_env = Started w0 →
         process_env !! "IGDB_CLIENT_ID" = Some (IGDBClient.clientId (igdbClient w0))
         ∧ process_env !! "IGDB_CLIENT_SECRET"
           = Some (IGDBClient.clientSecret (igdbClient w0))
         ∧ IGDBClient.clientId (igdbClient w0) ≠ ""
         ∧ IGDBClient.clientSecret (igdbClient w0) ≠ ""
         ∧ ∀ rt endpoint body,
             ∃ rest, wire (request rt endpoint body w0).2
                     = token_request (igdbClient w0) :: rest)
  ∧ (∀ code logged, startup process_env = Exited code logged →
       code = 1
       ∧ logged = ("Error initializing IGDB client:", Error.New missing_credentials)
       ∧ (process_env !! "IGDB_CLIENT_ID" = None
          ∨ process_env !! "IGDB_CLIENT_ID" = Some ""
          ∨ process_env !! "IGDB_CLIENT_SECRET" = None
          ∨ process_env !! "IGDB_CLIENT_SECRET" = Some "")).
Proof.
  unfold startup. rewrite constructor_run.
  destruct (process_env !! "IGDB_CLIENT_ID") as [id|];
    destruct (process_env !! "IGDB_CLIENT_SECRET") as [secret|].
  2-4: split; [discriminate|]; intros code logged [= <- <-]; auto 6.
  destruct id as [|a id]; [split; [discriminate|]; intros code logged [= <- <-]; auto 6|].
  destruct secret as [|b secret];
    [split; [discriminate|]; intros code logged [= <- <-]; auto 6|].
  cbn [to_boolean string_to_boolean andb]. split; [|discriminate].
  intros w0 [= <-]. cbn [igdbClient IGDBClient.clientId IGDBClient.clientSecret].
  do 4 (split; [done|]).
  intros rt endpoint body.
  rewrite request_world.
  destruct (getToken_cases rt
              (mkWorld (IGDBClient.mk (String a id) (String b secret) None) [] 0))
    as [(Hf & _)|[(_ & _ & E)|(_ & _ & E)]]; [discriminate Hf| |];
    rewrite E; cbn [sent wire igdbClient app]; eauto.
Qed.

(** ** Concrete runs of the further properties *)

Lemma request_api_error_witness :
  ∃ msg w', request Scenario.rejecting "games" "fields name;" Demo.w_cached
            = (Throw (Error.New msg), w')
            ∧ startsWith "IGDB API error: " msg = true
            ∧ includes "429" msg = true
            ∧ includes "Too Many Requests" msg = true
            ∧ wire w' = [api_request (igdbClient Demo.w_cached) "cached" "games" "fields name;"]
            ∧ ∃ td, IGDBClient.tokenData (igdbClient w') = Some td
                    ∧ TokenData.token td = "cached".
Proof.
  exact (request_api_error Scenario.rejecting "games" "fields name;" Demo.w_cached
           "cached" (mkWorld (igdbClient Demo.w_cached) [] 1) eq_refl eq_refl).
Defined.

Lemma getToken_reuses_fresh_token_witness :
  ∃ w2, getToken Demo.rt (getToken Demo.rt Demo.w).2 = (Return "fresh", w2)
        ∧ wire w2 = [token_request (igdbClient Demo.w)]
        ∧ igdbClient w2 = igdbClient (getToken Demo.rt Demo.w).2.
Proof.
  apply (getToken_reuses_fresh_token Demo.rt Demo.w eq_refl eq_refl).
  vm_compute. reflexivity.
Defined.

Lemma short_lived_token_not_reused_witness :
  needs_refresh Scenario.short_lived (getToken Scenario.short_lived Demo.w).2 = true.
Proof.
  apply (short_lived_token_not_reused Scenario.short_lived Demo.w).
  - intros n. cbn [clock Scenario.short_lived]. lia.
  - reflexivity.
  - reflexivity.
  - vm_compute. discriminate.
Defined.

Lemma searchGames_result_witness :
  searchGames Demo.rt "tactics" None Demo.w_cached
  = (Return [Demo.tactics],
     sent (mkWorld (igdbClient Demo.w_cached) [] 1)
          (api_request (igdbClient Demo.w_cached) "cached" "games"
                       (searchGames_body "tactics" 10))).
Proof.
  exact (proj1 (searchGames_result Demo.rt "tactics" None Demo.w_cached "cached"
                  (mkWorld (igdbClient Demo.w_cached) [] 1) eq_refl)).
Defined.

Lemma search_games_empty_query_witness :
  callToolHandler Demo.rt (call "search_games" (Some (Args.mk (Some "") (Some 5) None)))
                  Demo.w
  = (Return missing_query, Demo.w).
Proof.
  exact (search_games_empty_query Demo.rt (Some (Args.mk (Some "") (Some 5) None))
           Demo.w eq_refl).
Defined.

Lemma handler_reports_authentication_failure_witness :
  callToolHandler Demo.rt_denied
    (call "get_game_details" (Some (Args.mk None None (Some 1920)))) Demo.w
  = (Return (text_result "Error: Failed to authenticate with Twitch: 401 invalid_client"
                         (Some true)),
     mkWorld (igdbClient Demo.w) [token_request (igdbClient Demo.w)] 0).
Proof.
  exact (proj2 (handler_reports_authentication_failure Demo.rt_denied
                  (Some (Args.mk None None (Some 1920))) Demo.w eq_refl eq_refl)
               1920 eq_refl eq_refl).
Defined.

Lemma handler_reports_api_failure_witness :
  callToolHandler Scenario.rejecting
    (call "search_games" (Some (Args.mk (Some "zelda") (Some 80) None))) Demo.w_cached
  = (Return (text_result "Error: IGDB API error: 429 Too Many Requests" (Some true)),
     sent (mkWorld (igdbClient Demo.w_cached) [] 1)
          (api_request (igdbClient Demo.w_cached) "cached" "games"
                       (searchGames_body "zelda" 50))).
Proof.
  exact (handler_reports_api_failure Scenario.rejecting
           (Some (Args.mk (Some "zelda") (Some 80) None)) "zelda" Demo.w_cached
           "cached" (mkWorld (igdbClient Demo.w_cached) [] 1)
           eq_refl eq_refl eq_refl eq_refl).
Defined.

Lemma search_games_lists_every_game_witness :
  ∃ r, callToolHandler Demo.rt
         (call "search_games" (Some (Args.mk (Some "tactics") None None))) Demo.w_cached
       = (Return r, (searchGames Demo.rt "tactics" (Some 10) Demo.w_cached).2)
       ∧ CallToolResult.isError r = None
       ∧ startsWith (found_heading 1 "tactics") (result_text r) = true
       ∧ ∀ g, In g [Demo.tactics] → includes (formatGame Demo.rt g) (result_text r) = true.
Proof.
  apply (search_games_lists_every_game Demo.rt
           (Some (Args.mk (Some "tactics") None None)) "tactics" Demo.w_cached
           [Demo.tactics]); [reflexivity|reflexivity|reflexivity|discriminate].
Defined.

Lemma listed_schema_is_honoured_witness :
  callToolHandler Demo.rt (call "get_game_details" None) Demo.w
  = (Return (text_result "Error: game_id parameter is required" (Some true)), Demo.w)
  ∧ search_limit (Some (Args.mk (Some "zelda") None None)) = 10.
Proof.
  split.
  - destruct (listed_schema_is_honoured Demo.rt _ Demo.w (or_intror (or_introl eq_refl)))
      as [H _].
    apply (H "game_id" None); [left|]; reflexivity.
  - destruct (listed_schema_is_honoured Demo.rt _ Demo.w (or_introl eq_refl)) as [_ H].
    eapply H; [right; left; reflexivity|reflexivity|reflexivity].
Defined.

(** A game whose optional fields are all zero or empty reads like one
    without them. *)
Lemma formatters_take_falsy_as_absent_witness :
  formatGame Demo.rt Scenario.zeroed = formatGame Demo.rt Scenario.bare
  ∧ formatGameDetails Demo.rt Scenario.zeroed = formatGameDetails Demo.rt Scenario.bare.
Proof.
  destruct (formatters_take_falsy_as_absent Demo.rt Scenario.zeroed) as [H1 H2].
  split; [rewrite <- H1|rewrite <- H2]; reflexivity.
Defined.

Lemma formatGame_heading_witness : formatGame Demo.rt Scenario.zeroed = "**Pong** (ID: 7)".
Proof.
  exact (proj2 (formatGame_heading Demo.rt Scenario.zeroed)
               eq_refl eq_refl eq_refl eq_refl eq_refl eq_refl).
Defined.

Lemma formatGameDetails_content_witness :
  includes "- Breakout (ID: 9)" (formatGameDetails Demo.rt Scenario.sequel) = true.
Proof.
  refine (proj2 (formatGameDetails_content Demo.rt Scenario.sequel)
                _ (Ref.mk 9 "Breakout") eq_refl _).
  right. left. reflexivity.
Defined.

Lemma startup_outcomes_witness :
  startup (Demo.env "abc123" "s3cret")
  = Started (mkWorld (IGDBClient.mk "abc123" "s3cret" None) [] 0)
  ∧ ∀ rt endpoint body,
      ∃ rest, wire (request rt endpoint body
                      (mkWorld (IGDBClient.mk "abc123" "s3cret" None) [] 0)).2
              = token_request (IGDBClient.mk "abc123" "s3cret" None) :: rest.
Proof.
  split; [reflexivity|].
  exact (proj2 (proj2 (proj2 (proj2
    (proj1 (startup_outcomes (Demo.env "abc123" "s3cret"))
           (mkWorld (IGDBClient.mk "abc123" "s3cret" None) [] 0) eq_refl))))).
Defined.

Lemma getGameDetails_failures_are_thrown_witness :
  (∃ w', getGameDetails Demo.rt_denied 1920 Demo.w
         = (Throw (Error.New "Failed to authenticate with Twitch: 401 invalid_client"), w'))
  ∧ getGameDetails Scenario.rejecting 1920 Demo.w_cached
    = (Throw (Error.New "IGDB API error: 429 Too Many Requests"),
       sent (mkWorld (igdbClient Demo.w_cached) [] 1)
            (api_request (igdbClient Demo.w_cached) "cached" "games"
                         (getGameDetails_body 1920))).
Proof.
  split.
  - exact (proj1 (getGameDetails_failures_are_thrown Demo.rt_denied 1920 Demo.w)
                 eq_refl eq_refl).
  - exact (proj2 (getGameDetails_failures_are_thrown Scenario.rejecting 1920 Demo.w_cached)
                 "cached" (mkWorld (igdbClient Demo.w_cached) [] 1) eq_refl eq_refl).
Defined.
